(** * Sim: free-fall body under PID control

    A shallow embedding of [src/sim.py]: the classes [Body], [Controller] and
    [Simulator] and the module-level function [net_accel].

    Python numbers are kept abstract behind the interfaces [Num], [Power]
    and [MathLib]; the program is written once against them. What is proved
    for every instance holds of the program as CPython runs it. Two
    instances are given:
    - [float]: IEEE 754 binary64, the arithmetic CPython runs, with its
      rounding, its infinities and NaN, [OverflowError] from [**] and
      [ValueError] from the [math] module;
    - [R]: exact real arithmetic, an idealisation without rounding and
      without overflow; it serves for the closed form of the free fall and
      for statements that rounding does not change.

    Python lists and tuples are [list]s, indexing can raise [IndexError],
    true division by zero raises [ZeroDivisionError], a power out of range
    raises [OverflowError], [math.cos] and [math.sin] of an infinity raise
    [ValueError]; methods that mutate [self] take the object and
    return the updated one inside the error monad [result]. *)

From Stdlib Require Import ZArith QArith Reals Lra Lia List String Bool Floats
  DecimalString.
Import ListNotations.

Set Implicit Arguments.

(** ** Exceptions and the error monad *)

Inductive Exn : Type :=
| IndexError
| ZeroDivisionError
| AttributeError (cls attr : string)
| TypeError
| OverflowError
| ValueError.

Inductive result (A : Type) : Type :=
| Ok (a : A)
| Raise (e : Exn).

Arguments Ok {A} a.
Arguments Raise {A} e.

Definition bind {A B : Type} (m : result A) (k : A -> result B) : result B :=
  match m with
  | Ok a => k a
  | Raise e => Raise e
  end.

Declare Scope py_scope.
Delimit Scope py_scope with py.
Notation "x <- m ;; k" := (bind m (fun x => k))
  (at level 61, m at next level, right associativity) : py_scope.

(** ** Numbers *)

(** What the program asks of its numbers. [num q] reads a numeric literal,
    [of_Z] converts a Python [int]; [fdiv] and [fmod] are [/] and [%] for a
    divisor already known to be nonzero (see [div] and [mod_] below). *)
Class Num (T : Type) : Type := {
  num  : Q -> T;
  of_Z : Z -> T;
  add  : T -> T -> T;
  sub  : T -> T -> T;
  mul  : T -> T -> T;
  neg  : T -> T;
  fdiv : T -> T -> T;
  fmod : T -> T -> T;
  ltb  : T -> T -> bool;
  eqb  : T -> T -> bool
}.

(** The power operator at the exponent that [net_accel] uses, [x ** 2]:
    [sq x] is its value, and [sq_overflows x] tells when Python raises
    [OverflowError] instead of returning it. *)
Class Power (T : Type) : Type := {
  sq : T -> T;
  sq_overflows : T -> bool
}.

(** The part of Python's [math] module used by [net_accel]. [cos] and [sin]
    are the functions of the C library; [math_error x r] is the test by
    which the module, given the argument [x] and the C result [r], raises
    [ValueError] instead of returning [r]. *)
Class MathLib (T : Type) : Type := {
  pi  : T;
  cos : T -> T;
  sin : T -> T;
  math_error : T -> T -> bool
}.

Declare Scope num_scope.
Delimit Scope num_scope with num.
Infix "+" := add : num_scope.
Infix "-" := sub : num_scope.
Infix "*" := mul : num_scope.
Notation "- x" := (neg x) : num_scope.
Infix "<?" := ltb : num_scope.
Notation "x >? y" := (ltb y x) : num_scope.

(** *** Exact reals

    Arithmetic without rounding and without a largest number: no square is
    out of range, no sum is NaN. A statement at this instance is a statement
    about the idealised program, not about the program as CPython runs it;
    it is used for the closed form of the free fall, and the lemmas that
    hold only here say so. *)

Definition Rltb (x y : R) : bool := if Rlt_dec x y then true else false.
Definition Reqb (x y : R) : bool := if Req_dec_T x y then true else false.

(** [x % y] on reals: [x - floor (x / y) * y]. *)
Definition Rpymod (x y : R) : R := (x - IZR (Int_part (x / y)) * y)%R.

#[export] Instance Num_R : Num R := {|
  num := Q2R;
  of_Z := IZR;
  add := Rplus;
  sub := Rminus;
  mul := Rmult;
  neg := Ropp;
  fdiv := Rdiv;
  fmod := Rpymod;
  ltb := Rltb;
  eqb := Reqb
|}.

#[export] Instance Power_R : Power R := {|
  sq := fun x => (x ^ 2)%R;
  sq_overflows := fun _ => false
|}.

#[export] Instance MathLib_R : MathLib R := {|
  pi := PI;
  cos := Rtrigo_def.cos;
  sin := Rtrigo_def.sin;
  math_error := fun _ _ => false
|}.

(** *** binary64 *)

Module Binary64.

Definition of_int (z : Z) : float :=
  SF2Prim (binary_normalize prec emax z 0 false).

(** A literal with numerator and denominator below [2^53] is the correctly
    rounded quotient of two exact values, as CPython's parser gives. *)
Definition literal (q : Q) : float :=
  PrimFloat.div (of_int (Qnum q)) (of_int (Zpos (Qden q))).

(** C's [fmod] for a nonzero divisor: the exact remainder of the truncated
    quotient, with the sign of the dividend. *)
Definition c_fmod (x y : float) : float :=
  match Prim2SF x, Prim2SF y with
  | S754_nan, _ | _, S754_nan | S754_infinity _, _ | _, S754_zero _ => nan
  | S754_zero _, _ => x
  | S754_finite _ _ _, S754_infinity _ => x
  | S754_finite sx mx ex, S754_finite _ my ey =>
      let e := Z.min ex ey in
      let r := Z.rem (Zpos mx * 2 ^ (ex - e)) (Zpos my * 2 ^ (ey - e)) in
      let mag := Z.ldexp (of_int r) e in
      if sx then PrimFloat.opp mag else mag
  end.

(** CPython's [float_rem]: the remainder takes the sign of the divisor. *)
Definition py_mod (x y : float) : float :=
  let m := c_fmod x y in
  if PrimFloat.eqb m 0 then (if PrimFloat.ltb y 0 then (-0)%float else 0%float)
  else if Bool.eqb (PrimFloat.ltb y 0) (PrimFloat.ltb m 0) then m
  else PrimFloat.add m y.

#[export] Instance Num_float : Num float := {|
  num := literal;
  of_Z := of_int;
  add := PrimFloat.add;
  sub := PrimFloat.sub;
  mul := PrimFloat.mul;
  neg := PrimFloat.opp;
  fdiv := PrimFloat.div;
  fmod := py_mod;
  ltb := PrimFloat.ltb;
  eqb := PrimFloat.eqb
|}.

(** CPython's [float_pow] at the exponent 2: the square, and
    [OverflowError] when the square of a finite number is infinite. An
    infinity squares to infinity and NaN to NaN without an exception, and a
    square that underflows is [0.0]. The C library's [pow] is taken to
    round the square correctly. *)
#[export] Instance Power_float : Power float := {|
  sq := fun x => PrimFloat.mul x x;
  sq_overflows := fun x =>
    PrimFloat.is_finite x && PrimFloat.is_infinity (PrimFloat.mul x x)
|}.

(** [math.pi] is the binary64 number nearest to pi; [math.cos] and
    [math.sin] are the C library's, which differ between platforms and
    are taken as they come. CPython's [math_1] raises [ValueError] when
    the C result is NaN and the argument is not. *)
Definition MathLib_float (libm_cos libm_sin : float -> float)
    : MathLib float :=
  {| pi := 0x1.921fb54442d18p+1%float;
     cos := libm_cos;
     sin := libm_sin;
     math_error := fun x r =>
       PrimFloat.is_nan r && negb (PrimFloat.is_nan x) |}.

End Binary64.
Export Binary64.

(** ** Python operations that can raise *)

Section Operators.
Context {T : Type} `{Num T} `{Power T}.

(** [x / y] *)
Definition div (x y : T) : result T :=
  if eqb y (num 0) then Raise ZeroDivisionError else Ok (fdiv x y).

(** [x % y] *)
Definition mod_ (x y : T) : result T :=
  if eqb y (num 0) then Raise ZeroDivisionError else Ok (fmod x y).

(** [x ** 2] *)
Definition pow2 (x : T) : result T :=
  if sq_overflows x then Raise OverflowError else Ok (sq x).

(** [l[i]] for a list or a tuple and [i >= 0] *)
Definition getitem (l : list T) (i : nat) : result T :=
  match nth_error l i with
  | Some x => Ok x
  | None => Raise IndexError
  end.

(** [l[i] = v] *)
Fixpoint setitem (l : list T) (i : nat) (v : T) : result (list T) :=
  match l, i with
  | [], _ => Raise IndexError
  | _ :: l', O => Ok (v :: l')
  | x :: l', S i' => (r <- setitem l' i' v ;; Ok (x :: r))%py
  end.

(** [[f(a, b) for a, b in zip(l1, l2)]]: [zip] stops at the shorter one. *)
Fixpoint zip_with (f : T -> T -> T) (l1 l2 : list T) : list T :=
  match l1, l2 with
  | a :: l1', b :: l2' => f a b :: zip_with f l1' l2'
  | _, _ => []
  end.

(** [l.append(x)] *)
Definition append (l : list T) (x : T) : list T := l ++ [x].

(** [for i in range(n): body], threading the mutated object. *)
Fixpoint for_range {A : Type} (lo n : nat) (body : nat -> A -> result A)
    (a : A) : result A :=
  match n with
  | O => Ok a
  | S n' => (a' <- body lo a ;; for_range (S lo) n' body a')%py
  end.

End Operators.

(** ** The objects *)

Module Controller.

(** The attributes set by [Controller.__init__], but for the reference back
    to the body: the methods below take the body they act on. *)
Record t (T : Type) : Type := mk {
  force_lim : T;
  angle_force_lim : T;
  p : T;
  i : T;
  d : T;
  ang_p : T;
  ang_i : T;
  ang_d : T
}.

End Controller.

Module Body.

Record t (T : Type) : Type := mk {
  mass : T;
  radius : T;
  drag : list T;
  target : list T;
  target_vel : list T;
  target_angle_vel : T;
  controller : Controller.t T;
  position : list T;
  velocity : list T;
  angle : T;
  angle_vel : T;
  pos_error : list T;
  vel_error : list T;
  ang_error : T;
  ang_vel_error : T;
  xy_force : list T;
  angle_force : T
}.

Section Assign.
Context {T : Type}.
Implicit Type b : t T.

(** [self.<attribute> = v], one definition per attribute the program
    assigns after construction. *)
Definition set_position b v :=
  match b with
  | mk m r dr tg tv tav c _ vel a av pe ve ae ave f af =>
      mk m r dr tg tv tav c v vel a av pe ve ae ave f af
  end.
Definition set_velocity b v :=
  match b with
  | mk m r dr tg tv tav c pos _ a av pe ve ae ave f af =>
      mk m r dr tg tv tav c pos v a av pe ve ae ave f af
  end.
Definition set_angle b v :=
  match b with
  | mk m r dr tg tv tav c pos vel _ av pe ve ae ave f af =>
      mk m r dr tg tv tav c pos vel v av pe ve ae ave f af
  end.
Definition set_angle_vel b v :=
  match b with
  | mk m r dr tg tv tav c pos vel a _ pe ve ae ave f af =>
      mk m r dr tg tv tav c pos vel a v pe ve ae ave f af
  end.
Definition set_pos_error b v :=
  match b with
  | mk m r dr tg tv tav c pos vel a av _ ve ae ave f af =>
      mk m r dr tg tv tav c pos vel a av v ve ae ave f af
  end.
Definition set_vel_error b v :=
  match b with
  | mk m r dr tg tv tav c pos vel a av pe _ ae ave f af =>
      mk m r dr tg tv tav c pos vel a av pe v ae ave f af
  end.
Definition set_ang_error b v :=
  match b with
  | mk m r dr tg tv tav c pos vel a av pe ve _ ave f af =>
      mk m r dr tg tv tav c pos vel a av pe ve v ave f af
  end.
Definition set_ang_vel_error b v :=
  match b with
  | mk m r dr tg tv tav c pos vel a av pe ve ae _ f af =>
      mk m r dr tg tv tav c pos vel a av pe ve ae v f af
  end.
Definition set_xy_force b v :=
  match b with
  | mk m r dr tg tv tav c pos vel a av pe ve ae ave _ af =>
      mk m r dr tg tv tav c pos vel a av pe ve ae ave v af
  end.
Definition set_angle_force b v :=
  match b with
  | mk m r dr tg tv tav c pos vel a av pe ve ae ave f _ =>
      mk m r dr tg tv tav c pos vel a av pe ve ae ave f v
  end.
End Assign.

End Body.

Section Classes.
Context {T : Type} `{Num T}.
Local Open Scope num_scope.
Local Open Scope py_scope.
Implicit Type b : Body.t T.

(** *** class Controller *)

(** [Controller.__init__(self, body)]: every gain and limit is a literal. *)
Definition Controller_init : Controller.t T :=
  {| Controller.force_lim := num 50;
     Controller.angle_force_lim := num 10;
     Controller.p := num 15;
     Controller.i := num 0.15;
     Controller.d := num 5;
     Controller.ang_p := num 2;
     Controller.ang_i := num 0.001;
     Controller.ang_d := num 0.2 |}.

(** *** class Body *)

(** [Body.__init__]; the caller passes every argument. *)
Definition Body_init (mass radius : T) (position velocity : list T)
    (angle angle_vel : T) (drag target xy_force : list T) (angle_force : T)
    : Body.t T :=
  {| Body.mass := mass;
     Body.radius := radius;
     Body.drag := drag;
     Body.target := target;
     Body.target_vel := [num 0; num 0];
     Body.target_angle_vel := num 0;
     Body.controller := Controller_init;
     Body.position := position;
     Body.velocity := velocity;
     Body.angle := angle;
     Body.angle_vel := angle_vel;
     Body.pos_error := [num 0; num 0];
     Body.vel_error := [num 0; num 0];
     Body.ang_error := num 0;
     Body.ang_vel_error := num 0;
     Body.xy_force := xy_force;
     Body.angle_force := angle_force |}.

(** The default of the parameter [time_step] of [Body.step]. *)
Definition step_default_time_step : T := num 0.01.

(** One pass of [for i in range(3)] in [Body.step]. *)
Definition step_axis (net_accel : list T) (time_step : T) (i : nat) b
    : result (Body.t T) :=
  v <- getitem (Body.velocity b) i ;;
  a <- getitem net_accel i ;;
  vel <- setitem (Body.velocity b) i (v + a * time_step) ;;
  let b := Body.set_velocity b vel in
  x <- getitem (Body.position b) i ;;
  v' <- getitem (Body.velocity b) i ;;
  pos <- setitem (Body.position b) i (x + v' * time_step) ;;
  Ok (Body.set_position b pos).

(** [Body.step(self, net_accel, time_step)] *)
Definition step b (net_accel : list T) (time_step : T) : result (Body.t T) :=
  b <- for_range 0 3 (step_axis net_accel time_step) b ;;
  alpha <- getitem net_accel 3 ;;
  let b := Body.set_angle_vel b (Body.angle_vel b + alpha * time_step) in
  let b := Body.set_angle b (Body.angle b + Body.angle_vel b * time_step) in
  a <- mod_ (Body.angle b) (num 360) ;;
  let b := Body.set_angle b a in
  Ok (if Body.angle b <? num 0
      then Body.set_angle b (Body.angle b + num 360)
      else b).

Definition update_pos_error b : Body.t T :=
  Body.set_pos_error b (zip_with sub (Body.position b) (Body.target b)).

Definition update_vel_error b : Body.t T :=
  Body.set_vel_error b (zip_with sub (Body.velocity b) (Body.target_vel b)).

Definition update_angle_error b : Body.t T :=
  let b := Body.set_ang_error b (Body.angle b) in
  if Body.ang_error b >? num 180
  then Body.set_ang_error b (Body.ang_error b - num 360)
  else b.

Definition update_ang_vel_error b : Body.t T :=
  Body.set_ang_vel_error b (Body.angle_vel b - Body.target_angle_vel b).

(** *** Controller methods, acting on [self.body] *)

Definition correct_xy b (integral_x integral_y : T) : result (Body.t T) :=
  let c := Body.controller b in
  (* x axis *)
  e0 <- getitem (Body.pos_error b) 0 ;;
  let force_x := e0 * - Controller.p c in
  v0 <- getitem (Body.velocity b) 0 ;;
  let force_x := force_x + v0 * - Controller.d c in
  let force_x := force_x + integral_x * - Controller.i c in
  (* y axis *)
  e1 <- getitem (Body.pos_error b) 1 ;;
  let force_y := e1 * - Controller.p c in
  v1 <- getitem (Body.velocity b) 1 ;;
  let force_y := force_y + v1 * - Controller.d c in
  let force_y := force_y + integral_y * - Controller.i c in
  (* limit force *)
  let force_x :=
    if force_x >? Controller.force_lim c then Controller.force_lim c
    else if force_x <? - Controller.force_lim c
         then - Controller.force_lim c
         else force_x in
  let force_y :=
    if force_y >? Controller.force_lim c then Controller.force_lim c
    else if force_y <? - Controller.force_lim c
         then - Controller.force_lim c
         else force_y in
  Ok (Body.set_xy_force b [force_x; force_y]).

Definition correct_angle b (integral_ang : T) : Body.t T :=
  let c := Body.controller b in
  (* angular force *)
  let ang_force := Body.ang_error b * - Controller.ang_p c in
  let ang_force := ang_force + Body.ang_vel_error b * - Controller.ang_d c in
  let ang_force := ang_force + integral_ang * - Controller.ang_i c in
  (* limit force *)
  let ang_force :=
    if ang_force >? Controller.angle_force_lim c
    then Controller.angle_force_lim c
    else if ang_force <? - Controller.angle_force_lim c
         then - Controller.angle_force_lim c
         else ang_force in
  Body.set_angle_force b ang_force.

End Classes.

Module Simulator.

(** The attributes set by [Simulator.__init__]; the thirteen lists are the
    recorded series, one sample appended per pass of the loop of [run]. *)
Record t (T : Type) : Type := mk {
  debug : bool;
  body : Body.t T;
  time_step : T;
  step_count : Z;
  wind : list T;
  time : list T;
  x_pos : list T;
  y_pos : list T;
  z_pos : list T;
  x_vel : list T;
  y_vel : list T;
  z_vel : list T;
  x_accel : list T;
  y_accel : list T;
  z_accel : list T;
  angle : list T;
  angle_vel : list T;
  angle_accel : list T
}.

Section Assign.
Context {T : Type}.
Implicit Type s : t T.

Definition set_body s v :=
  match s with
  | mk dbg _ dt n w t xp yp zp xv yv zv xa ya za an av aa =>
      mk dbg v dt n w t xp yp zp xv yv zv xa ya za an av aa
  end.
Definition set_step_count s v :=
  match s with
  | mk dbg b dt _ w t xp yp zp xv yv zv xa ya za an av aa =>
      mk dbg b dt v w t xp yp zp xv yv zv xa ya za an av aa
  end.
End Assign.

End Simulator.

(** [f"{x:0.<digits>f}"] for a number [x]. *)
Class Format (T : Type) : Type := {
  fmt : nat -> T -> string
}.

(** Fixed-point formatting of an exact real. *)
Module ExactFormat.

(** The integer nearest to [x], ties to the even one. *)
Definition round_half_even (x : R) : Z :=
  let f := Int_part x in
  let r := (x - IZR f)%R in
  if Rlt_dec r (1 / 2) then f
  else if Rlt_dec (1 / 2) r then (f + 1)%Z
  else if Z.even f then f else (f + 1)%Z.

Definition string_of_Z (z : Z) : string :=
  NilZero.string_of_uint (N.to_uint (Z.to_N z)).

Fixpoint zeros (n : nat) : string :=
  match n with
  | O => EmptyString
  | S n' => ("0" ++ zeros n')%string
  end.

Definition pad_left (width : nat) (s : string) : string :=
  (zeros (width - String.length s) ++ s)%string.

(** Sign, integer part, and [digits] decimals of the magnitude rounded at
    that place. *)
Definition fixed (digits : nat) (x : R) : string :=
  let scale := (10 ^ Z.of_nat digits)%Z in
  let q := round_half_even (Rabs x * IZR scale) in
  ((if Rlt_dec x 0 then "-" else EmptyString)
   ++ string_of_Z (q / scale)
   ++ match digits with
      | O => EmptyString
      | S _ => "." ++ pad_left digits (string_of_Z (q mod scale))
      end)%string.

#[export] Instance Format_R : Format R := {| fmt := fixed |}.

End ExactFormat.
Export ExactFormat.

Section Reports.
Context {T : Type} `{Num T} `{Format T}.
Local Open Scope py_scope.
Local Open Scope string_scope.
Implicit Type b : Body.t T.

(** What an attribute of a [Body] can hold: a number, a list or tuple of
    numbers, the controller, or a bound method. *)
Inductive value : Type :=
| VNum (x : T)
| VSeq (l : list T)
| VController (c : Controller.t T)
| VMethod (name : string).

(** The instance dictionary that [Body.__init__] fills. *)
Definition Body_dict b : list (string * value) :=
  [("mass", VNum (Body.mass b));
   ("radius", VNum (Body.radius b));
   ("drag", VSeq (Body.drag b));
   ("target", VSeq (Body.target b));
   ("target_vel", VSeq (Body.target_vel b));
   ("target_angle_vel", VNum (Body.target_angle_vel b));
   ("controller", VController (Body.controller b));
   ("position", VSeq (Body.position b));
   ("velocity", VSeq (Body.velocity b));
   ("angle", VNum (Body.angle b));
   ("angle_vel", VNum (Body.angle_vel b));
   ("pos_error", VSeq (Body.pos_error b));
   ("vel_error", VSeq (Body.vel_error b));
   ("ang_error", VNum (Body.ang_error b));
   ("ang_vel_error", VNum (Body.ang_vel_error b));
   ("xy_force", VSeq (Body.xy_force b));
   ("angle_force", VNum (Body.angle_force b))].

(** The methods that [class Body] defines. *)
Definition Body_methods : list string :=
  ["step"; "update_pos_error"; "update_vel_error"; "update_angle_error";
   "update_ang_vel_error"; "pos_report"; "vel_report"; "ang_report";
   "ang_vel_report"; "pos_error_report"; "vel_error_report";
   "ang_error_report"].

Fixpoint lookup (name : string) (d : list (string * value)) : option value :=
  match d with
  | [] => None
  | (k, v) :: d' => if String.eqb k name then Some v else lookup name d'
  end.

(** [self.<name>] on a [Body]: the instance dictionary first, then the
    class; any other name raises. *)
Definition Body_getattr b (name : string) : result value :=
  match lookup name (Body_dict b) with
  | Some v => Ok v
  | None =>
      if existsb (String.eqb name) Body_methods
      then Ok (VMethod name)
      else Raise (AttributeError "Body" name)
  end.

(** [v[i]]: only a sequence can be indexed. *)
Definition subscript (v : value) (i : nat) : result value :=
  match v with
  | VSeq l => (x <- getitem l i ;; Ok (VNum x))
  | _ => Raise TypeError
  end.

(** [f"{v:0.<digits>f}"]: only a number accepts the format [f]. *)
Definition format_f (digits : nat) (v : value) : result string :=
  match v with
  | VNum x => Ok (fmt digits x)
  | _ => Raise TypeError
  end.

(** [f"{self.<name>[i]:0.2f}"] and [f"{self.<name>:0.2f}"] *)
Definition field_at b (name : string) (i : nat) : result string :=
  v <- Body_getattr b name ;; x <- subscript v i ;; format_f 2 x.

Definition field b (name : string) : result string :=
  v <- Body_getattr b name ;; format_f 2 v.

Definition pos_report b : result string :=
  x <- field_at b "position" 0 ;;
  y <- field_at b "position" 1 ;;
  z <- field_at b "position" 2 ;;
  Ok ("pos(" ++ x ++ ", " ++ y ++ ", " ++ z ++ ")").

Definition vel_report b : result string :=
  x <- field_at b "velocity" 0 ;;
  y <- field_at b "velocity" 1 ;;
  z <- field_at b "velocity" 2 ;;
  Ok ("vel(" ++ x ++ ", " ++ y ++ ", " ++ z ++ ")").

Definition ang_report b : result string :=
  a <- field b "angle" ;;
  Ok ("angle(" ++ a ++ ")").

Definition ang_vel_report b : result string :=
  a <- field b "ang_vel" ;;
  Ok ("ang_vel(" ++ a ++ ")").

Definition pos_error_report b : result string :=
  x <- field_at b "pos_error" 0 ;;
  y <- field_at b "pos_error" 1 ;;
  Ok ("pos_error(" ++ x ++ ", " ++ y ++ ")").

Definition vel_error_report b : result string :=
  a <- field b "vel_error" ;;
  Ok ("vel_error(" ++ a ++ ")").

Definition ang_error_report b : result string :=
  a <- field b "ang_error" ;;
  Ok ("ang_error(" ++ a ++ ")").

End Reports.

Section Simulation.
Context {T : Type} `{Num T} `{Power T} `{MathLib T} `{Format T}.
Local Open Scope num_scope.
Local Open Scope py_scope.
Implicit Type b : Body.t T.
Implicit Type s : Simulator.t T.

(** [Simulator.__init__]; the caller passes every argument. *)
Definition Simulator_init b (wind_accel : list T) (time_step : T)
    (debug : bool) : Simulator.t T :=
  {| Simulator.debug := debug;
     Simulator.body := b;
     Simulator.time_step := time_step;
     Simulator.step_count := 0;
     Simulator.wind := wind_accel;
     Simulator.time := [];
     Simulator.x_pos := []; Simulator.y_pos := []; Simulator.z_pos := [];
     Simulator.x_vel := []; Simulator.y_vel := []; Simulator.z_vel := [];
     Simulator.x_accel := []; Simulator.y_accel := [];
     Simulator.z_accel := [];
     Simulator.angle := []; Simulator.angle_vel := [];
     Simulator.angle_accel := [] |}.

(** [math.cos(x)] and [math.sin(x)] *)
Definition math_cos (x : T) : result T :=
  if math_error x (cos x) then Raise ValueError else Ok (cos x).

Definition math_sin (x : T) : result T :=
  if math_error x (sin x) then Raise ValueError else Ok (sin x).

(** [net_accel(body, sim)]; the result is the 4-tuple as a list. *)
Definition net_accel b s : result (list T) :=
  let gravity := - num 9.81 in
  half <- div (num 1) (num 2) ;;
  r2 <- pow2 (Body.radius b) ;;
  let body_moi := half * Body.mass b * r2 in
  convert <- div (num 180) pi ;;
  d0 <- getitem (Body.drag b) 0 ;;
  v0 <- getitem (Body.velocity b) 0 ;;
  s0 <- pow2 v0 ;;
  w0 <- getitem (Simulator.wind s) 0 ;;
  f0 <- getitem (Body.xy_force b) 0 ;;
  th <- div (Body.angle b) convert ;;
  co <- math_cos th ;;
  f1 <- getitem (Body.xy_force b) 1 ;;
  th' <- div (Body.angle b) convert ;;
  si <- math_sin th' ;;
  let x_accel := d0 * s0 + w0 + f0 * co + f1 * si in
  d1 <- getitem (Body.drag b) 1 ;;
  v1 <- getitem (Body.velocity b) 1 ;;
  s1 <- pow2 v1 ;;
  w1 <- getitem (Simulator.wind s) 1 ;;
  f1 <- getitem (Body.xy_force b) 1 ;;
  th <- div (Body.angle b) convert ;;
  co <- math_cos th ;;
  f0 <- getitem (Body.xy_force b) 0 ;;
  th' <- div (Body.angle b) convert ;;
  si <- math_sin th' ;;
  let y_accel := d1 * s1 + w1 + f1 * co + f0 * si in
  d2 <- getitem (Body.drag b) 2 ;;
  v2 <- getitem (Body.velocity b) 2 ;;
  s2 <- pow2 v2 ;;
  let z_accel := gravity * Body.mass b + d2 * s2 in
  let torque := Body.angle_force b in
  ax <- div x_accel (Body.mass b) ;;
  ay <- div y_accel (Body.mass b) ;;
  az <- div z_accel (Body.mass b) ;;
  alpha <- div torque body_moi ;;
  Ok [ax; ay; az; alpha].

(** The state of a call of [Simulator.run]: [self], the three local
    accumulators, and the lines printed so far. *)
Record frame : Type := mk_frame {
  self : Simulator.t T;
  integral_x : T;
  integral_y : T;
  integral_ang : T;
  stdout : list string
}.

(** The line printed by [run] when [self.debug] is set. *)
Definition debug_line s : result string :=
  let t := fmt 3 (of_Z (Simulator.step_count s) * Simulator.time_step s) in
  p <- pos_report (Simulator.body s) ;;
  v <- vel_report (Simulator.body s) ;;
  a <- ang_report (Simulator.body s) ;;
  pe <- pos_error_report (Simulator.body s) ;;
  ae <- ang_error_report (Simulator.body s) ;;
  Ok ("time: " ++ t ++ ", " ++ p ++ ", " ++ v ++ ", " ++ a ++ ", "
      ++ pe ++ ", " ++ ae)%string.

(** One pass through the body of the [while] loop of [Simulator.run]. *)
Definition tick (fr : frame) : result frame :=
  let s := self fr in
  body_accel <- net_accel (Simulator.body s) s ;;
  b <- step (Simulator.body s) body_accel step_default_time_step ;;
  let s := Simulator.set_body s b in
  let s := Simulator.set_step_count s (Simulator.step_count s + 1)%Z in
  (* update errors *)
  let s := Simulator.set_body s (update_pos_error (Simulator.body s)) in
  let s := Simulator.set_body s (update_vel_error (Simulator.body s)) in
  let s := Simulator.set_body s (update_angle_error (Simulator.body s)) in
  let s := Simulator.set_body s (update_ang_vel_error (Simulator.body s)) in
  (* update controller *)
  b <- (if (Simulator.step_count s mod 1 =? 0)%Z
        then correct_xy (correct_angle (Simulator.body s) (integral_ang fr))
                        (integral_x fr) (integral_y fr)
        else Ok (Simulator.body s)) ;;
  let s := Simulator.set_body s b in
  (* integrals of the PID loops *)
  e0 <- getitem (Body.pos_error (Simulator.body s)) 0 ;;
  ix <- (if e0 <? num 1
         then (e <- getitem (Body.pos_error (Simulator.body s)) 0 ;;
               Ok (integral_x fr + e))
         else Ok (num 0)) ;;
  e1 <- getitem (Body.pos_error (Simulator.body s)) 1 ;;
  iy <- (if e1 <? num 1
         then (e <- getitem (Body.pos_error (Simulator.body s)) 1 ;;
               Ok (integral_y fr + e))
         else Ok (num 0)) ;;
  let ia := if Body.ang_error (Simulator.body s) <? num 1
            then integral_ang fr + Body.ang_error (Simulator.body s)
            else num 0 in
  (* samples for plotting *)
  let t := Simulator.time_step s * of_Z (Simulator.step_count s) in
  x <- getitem (Body.position (Simulator.body s)) 0 ;;
  y <- getitem (Body.position (Simulator.body s)) 1 ;;
  z <- getitem (Body.position (Simulator.body s)) 2 ;;
  vx <- getitem (Body.velocity (Simulator.body s)) 0 ;;
  vy <- getitem (Body.velocity (Simulator.body s)) 1 ;;
  vz <- getitem (Body.velocity (Simulator.body s)) 2 ;;
  ax <- getitem body_accel 0 ;;
  ay <- getitem body_accel 1 ;;
  az <- getitem body_accel 2 ;;
  alpha <- getitem body_accel 3 ;;
  let s :=
    {| Simulator.debug := Simulator.debug s;
       Simulator.body := Simulator.body s;
       Simulator.time_step := Simulator.time_step s;
       Simulator.step_count := Simulator.step_count s;
       Simulator.wind := Simulator.wind s;
       Simulator.time := append (Simulator.time s) t;
       Simulator.x_pos := append (Simulator.x_pos s) x;
       Simulator.y_pos := append (Simulator.y_pos s) y;
       Simulator.z_pos := append (Simulator.z_pos s) z;
       Simulator.x_vel := append (Simulator.x_vel s) vx;
       Simulator.y_vel := append (Simulator.y_vel s) vy;
       Simulator.z_vel := append (Simulator.z_vel s) vz;
       Simulator.x_accel := append (Simulator.x_accel s) ax;
       Simulator.y_accel := append (Simulator.y_accel s) ay;
       Simulator.z_accel := append (Simulator.z_accel s) az;
       Simulator.angle :=
         append (Simulator.angle s) (Body.angle (Simulator.body s));
       Simulator.angle_vel :=
         append (Simulator.angle_vel s) (Body.angle_vel (Simulator.body s));
       Simulator.angle_accel := append (Simulator.angle_accel s) alpha |} in
  out <- (if Simulator.debug s
          then (l <- debug_line s ;; Ok (stdout fr ++ [l]))
          else Ok (stdout fr)) ;;
  Ok {| self := s; integral_x := ix; integral_y := iy; integral_ang := ia;
        stdout := out |}.

(** The [while] loop of [Simulator.run], for at most [fuel] passes: [None]
    when the body is still above ground after that many. *)
Fixpoint loop (fuel : nat) (fr : frame) : option (result frame) :=
  match getitem (Body.position (Simulator.body (self fr))) 2 with
  | Raise e => Some (Raise e)
  | Ok z =>
      if z >? num 0 then
        match fuel with
        | O => None
        | S fuel' =>
            match tick fr with
            | Raise e => Some (Raise e)
            | Ok fr' => loop fuel' fr'
            end
        end
      else Some (Ok fr)
  end.

(** The frame on entry to [run]: the three accumulators at [0], nothing
    printed. *)
Definition enter s : frame :=
  {| self := s; integral_x := num 0; integral_y := num 0;
     integral_ang := num 0; stdout := [] |}.

(** [Simulator.run(self)] *)
Definition run (fuel : nat) s : option (result frame) :=
  loop fuel (enter s).

(** A simulator around a fresh body, from the parameters a caller chooses;
    [angle_vel], [xy_force] and [angle_force] take the defaults of
    [Body.__init__]. *)
Definition construct (mass radius : T) (position velocity : list T)
    (angle : T) (drag target wind_accel : list T) (time_step : T)
    (debug : bool) : Simulator.t T :=
  Simulator_init
    (Body_init mass radius position velocity angle (num 0) drag target
       [num 0; num 0] (num 0))
    wind_accel time_step debug.

End Simulation.

(** ** class Data_Cat: the input boxes of the data screen *)

Module Data_Cat.

(** The attributes of a [Data_Cat] that [update_active] and [update_input]
    read or assign; the screen, the font, the labels and the colours are
    only drawn. A rectangle argument left out of the constructor is
    [None]; so is [type]. *)
Record t (Rect : Type) : Type := mk {
  x_input_rect : option Rect;
  y_input_rect : option Rect;
  z_input_rect : option Rect;
  x_input : string;
  y_input : string;
  z_input : string;
  x_active : bool;
  y_active : bool;
  z_active : bool;
  type : option Z
}.

Section Assign.
Context {Rect : Type}.
Implicit Type d : t Rect.

Definition set_x_input d v :=
  match d with
  | mk xr yr zr _ yi zi xa ya za ty => mk xr yr zr v yi zi xa ya za ty
  end.
Definition set_y_input d v :=
  match d with
  | mk xr yr zr xi _ zi xa ya za ty => mk xr yr zr xi v zi xa ya za ty
  end.
Definition set_z_input d v :=
  match d with
  | mk xr yr zr xi yi _ xa ya za ty => mk xr yr zr xi yi v xa ya za ty
  end.
Definition set_x_active d v :=
  match d with
  | mk xr yr zr xi yi zi _ ya za ty => mk xr yr zr xi yi zi v ya za ty
  end.
Definition set_y_active d v :=
  match d with
  | mk xr yr zr xi yi zi xa _ za ty => mk xr yr zr xi yi zi xa v za ty
  end.
Definition set_z_active d v :=
  match d with
  | mk xr yr zr xi yi zi xa ya _ ty => mk xr yr zr xi yi zi xa ya v ty
  end.
End Assign.

End Data_Cat.

(** The events that the loop of [animate] hands to the input boxes: a mouse
    click with its position, a key press with its key code and its text. *)
Inductive Event (Pos : Type) : Type :=
| MOUSEBUTTONDOWN (pos : Pos)
| KEYDOWN (key : Z) (unicode : string).

Arguments KEYDOWN {Pos} key unicode.

Section DataCat.
(** What the program takes from pygame: rectangles, positions, the test
    [Rect.collidepoint] and the key code [pygame.K_BACKSPACE]. *)
Variable Rect : Type.
Variable Pos : Type.
Variable collidepoint : Rect -> Pos -> bool.
Variable K_BACKSPACE : Z.
Local Open Scope py_scope.
Implicit Type d : Data_Cat.t Rect.

(** [Data_Cat.__init__], with the arguments that the methods below read. *)
Definition Data_Cat_init (x_input_rect y_input_rect z_input_rect : option Rect)
    (type : option Z) : Data_Cat.t Rect :=
  {| Data_Cat.x_input_rect := x_input_rect;
     Data_Cat.y_input_rect := y_input_rect;
     Data_Cat.z_input_rect := z_input_rect;
     Data_Cat.x_input := EmptyString;
     Data_Cat.y_input := EmptyString;
     Data_Cat.z_input := EmptyString;
     Data_Cat.x_active := false;
     Data_Cat.y_active := false;
     Data_Cat.z_active := false;
     Data_Cat.type := type |}.

(** [rect.collidepoint(event_pos)]; [None] has no such method. *)
Definition collide (rect : option Rect) (event_pos : Pos) : result bool :=
  match rect with
  | Some r => Ok (collidepoint r event_pos)
  | None => Raise (AttributeError "NoneType" "collidepoint")
  end.

(** [self.type == n] *)
Definition type_is d (n : Z) : bool :=
  match Data_Cat.type d with
  | Some k => (k =? n)%Z
  | None => false
  end.

(** [Data_Cat.update_active(self, event_pos)] *)
Definition update_active d (event_pos : Pos) : result (Data_Cat.t Rect) :=
  if type_is d 0 then
    cx <- collide (Data_Cat.x_input_rect d) event_pos ;;
    if cx : bool then
      Ok (Data_Cat.set_z_active
            (Data_Cat.set_y_active (Data_Cat.set_x_active d true) false)
            false)
    else
      cy <- collide (Data_Cat.y_input_rect d) event_pos ;;
      if cy : bool then
        Ok (Data_Cat.set_z_active
              (Data_Cat.set_y_active (Data_Cat.set_x_active d false) true)
              false)
      else
        cz <- collide (Data_Cat.z_input_rect d) event_pos ;;
        if cz : bool then
          Ok (Data_Cat.set_z_active
                (Data_Cat.set_y_active (Data_Cat.set_x_active d false) false)
                true)
        else
          Ok (Data_Cat.set_z_active
                (Data_Cat.set_y_active (Data_Cat.set_x_active d false) false)
                false)
  else if type_is d 1 then
    cx <- collide (Data_Cat.x_input_rect d) event_pos ;;
    if cx : bool then Ok (Data_Cat.set_x_active d true)
    else Ok (Data_Cat.set_x_active d false)
  else if type_is d 2 then
    cx <- collide (Data_Cat.x_input_rect d) event_pos ;;
    if cx : bool then
      Ok (Data_Cat.set_y_active (Data_Cat.set_x_active d true) false)
    else
      cy <- collide (Data_Cat.y_input_rect d) event_pos ;;
      if cy : bool then
        Ok (Data_Cat.set_y_active (Data_Cat.set_x_active d false) true)
      else
        Ok (Data_Cat.set_y_active (Data_Cat.set_x_active d false) false)
  else Ok d.

(** [s[:-1]] on a string: all but the last character, nothing for the
    empty string. *)
Fixpoint but_last (s : string) : string :=
  match s with
  | EmptyString => EmptyString
  | String c s' =>
      match s' with
      | EmptyString => EmptyString
      | String _ _ => String c (but_last s')
      end
  end.

(** [Data_Cat.update_input(self, event)], from the two attributes of the
    event that it reads. *)
Definition update_input d (key : Z) (unicode : string) : Data_Cat.t Rect :=
  if Data_Cat.x_active d then
    if (key =? K_BACKSPACE)%Z
    then Data_Cat.set_x_input d (but_last (Data_Cat.x_input d))
    else Data_Cat.set_x_input d (Data_Cat.x_input d ++ unicode)%string
  else if Data_Cat.y_active d then
    if (key =? K_BACKSPACE)%Z
    then Data_Cat.set_y_input d (but_last (Data_Cat.y_input d))
    else Data_Cat.set_y_input d (Data_Cat.y_input d ++ unicode)%string
  else if Data_Cat.z_active d then
    if (key =? K_BACKSPACE)%Z
    then Data_Cat.set_z_input d (but_last (Data_Cat.z_input d))
    else Data_Cat.set_z_input d (Data_Cat.z_input d ++ unicode)%string
  else d.

(** [for data in data_list: f(data)], for a method that mutates [data]. *)
Fixpoint for_each {A : Type} (f : A -> result A) (l : list A)
    : result (list A) :=
  match l with
  | [] => Ok []
  | a :: l' => a' <- f a ;; r <- for_each f l' ;; Ok (a' :: r)
  end.

(** The two branches of the event loop of [animate] that reach the input
    boxes: a click goes to [update_active] of every box, a key press to
    [update_input] of every box. *)
Definition dispatch (data_list : list (Data_Cat.t Rect)) (event : Event Pos)
    : result (list (Data_Cat.t Rect)) :=
  match event with
  | MOUSEBUTTONDOWN pos =>
      for_each (fun data => update_active data pos) data_list
  | KEYDOWN key unicode =>
      for_each (fun data => Ok (update_input data key unicode)) data_list
  end.

(** The events of a session, one after the other. *)
Fixpoint dispatch_all (data_list : list (Data_Cat.t Rect))
    (events : list (Event Pos)) : result (list (Data_Cat.t Rect)) :=
  match events with
  | [] => Ok data_list
  | event :: events' =>
      l <- dispatch data_list event ;; dispatch_all l events'
  end.

End DataCat.

(** * Definitions used by the statements *)

Section PassDefinitions.
Context {T : Type} `{Num T} `{Power T} `{MathLib T} `{Format T}.
Local Open Scope num_scope.
Implicit Type b : Body.t T.
Implicit Type fr : frame (T := T).

(** The four error updates of a pass, in the order of the source. *)
Definition update_errors b : Body.t T :=
  update_ang_vel_error
    (update_angle_error (update_vel_error (update_pos_error b))).

(** The heading that [Body.step] stores for the angle [a] it has
    integrated: [a % 360], and 360 more when that is negative. *)
Definition wrap_heading (a : T) : T :=
  let m := fmod a (num 360) in
  if m <? num 0 then m + num 360 else m.

(** Saturation in the words of the specification: a value restricted to
    the symmetric range from [- lim] to [lim]. *)
Definition clamp (f lim : T) : T :=
  if f >? lim then lim
  else if f <? - lim then - lim
  else f.

(** The accumulator policy in the words of the specification: an error
    strictly below 1 is added to the accumulator, any other error resets
    it to 0. *)
Definition integral_policy (acc e : T) : T :=
  if e <? num 1 then acc + e else num 0.

(** The accumulator after each error of a sequence. *)
Fixpoint accumulator_trace (acc : T) (errors : list T) : list T :=
  match errors with
  | [] => []
  | e :: errors' =>
      let acc' := integral_policy acc e in
      acc' :: accumulator_trace acc' errors'
  end.

(** The errors that a pass leaves on the body, as the accumulators are
    updated from them: the position error along an axis and the heading
    error. *)
Definition pass_pos_error (axis : nat) (fr : frame (T := T)) : T :=
  nth axis (Body.pos_error (Simulator.body (self fr))) (num 0).

Definition pass_ang_error (fr : frame (T := T)) : T :=
  Body.ang_error (Simulator.body (self fr)).

(** Successive passes of the loop: [passes fr frs] when the frames [frs]
    are what the passes leave one after the other, starting from [fr]. *)
Fixpoint passes (fr : frame (T := T)) (frs : list (frame (T := T))) : Prop :=
  match frs with
  | [] => True
  | fr' :: frs' => tick fr = Ok fr' /\ passes fr' frs'
  end.

(** The [while] loop as a relation between the frame it starts from and
    what the call comes to: the frame at exit, or the exception raised. *)
Inductive runs : frame (T := T) -> result (frame (T := T)) -> Prop :=
| runs_landed fr z :
    getitem (Body.position (Simulator.body (self fr))) 2 = Ok z ->
    (z >? num 0) = false ->
    runs fr (Ok fr)
| runs_no_altitude fr e :
    getitem (Body.position (Simulator.body (self fr))) 2 = Raise e ->
    runs fr (Raise e)
| runs_raise fr z e :
    getitem (Body.position (Simulator.body (self fr))) 2 = Ok z ->
    (z >? num 0) = true ->
    tick fr = Raise e ->
    runs fr (Raise e)
| runs_pass fr z fr' r :
    getitem (Body.position (Simulator.body (self fr))) 2 = Ok z ->
    (z >? num 0) = true ->
    tick fr = Ok fr' ->
    runs fr' r ->
    runs fr r.

End PassDefinitions.

Section ExactDefinitions.
Local Open Scope R_scope.
Implicit Type b : Body.t R.
Implicit Type s : Simulator.t R.

(** The body that [Body.step] leaves behind, given the new velocity and
    position lists. *)
Definition stepped b (vel pos : list R) (alpha dt : R) : Body.t R :=
  let w := Body.angle_vel b + alpha * dt in
  Body.set_angle
    (Body.set_angle_vel (Body.set_position (Body.set_velocity b vel) pos) w)
    (Rpymod (Body.angle b + w * dt) 360).

(** The heading in radians, as [net_accel] converts it. *)
Definition radians (deg : R) : R := deg * PI / 180.

(** The vertical acceleration of the force model. *)
Definition z_accel_of b (dz vz : R) : R :=
  (-9.81 * Body.mass b + dz * vz ^ 2) / Body.mass b.

(** The shape the data model gives a simulator and its body: three
    components for position, velocity and drag, two for target, force and
    wind, and a body with mass and extent. *)
Record well_formed s : Prop := {
  wf_position : List.length (Body.position (Simulator.body s)) = 3%nat;
  wf_velocity : List.length (Body.velocity (Simulator.body s)) = 3%nat;
  wf_drag : List.length (Body.drag (Simulator.body s)) = 3%nat;
  wf_target : List.length (Body.target (Simulator.body s)) = 2%nat;
  wf_xy_force : List.length (Body.xy_force (Simulator.body s)) = 2%nat;
  wf_wind : List.length (Simulator.wind s) = 2%nat;
  wf_mass : Body.mass (Simulator.body s) <> 0;
  wf_radius : Body.radius (Simulator.body s) <> 0
}.

(** Vertical velocity and altitude after [n] passes from rest at [z0], with
    no vertical drag: the closed form of semi-implicit Euler with the step
    0.01 that [run] integrates with. *)
Definition fall_velocity (n : nat) : R := - (9.81 * 0.01) * INR n.

Definition fall_altitude (z0 : R) (n : nat) : R :=
  z0 - 9.81 * 0.01 ^ 2 * (INR n * (INR n + 1)) / 2.

(** The number of passes the specification gives for the fall from 122:
    [ceil(sqrt(2 * 122 / 9.81) / time_step)]. *)
Definition spec_tick_count (time_step : R) : Z :=
  Zceil (R_sqrt.sqrt (2 * 122 / 9.81) / time_step).

(** The scenario of the fall: a body of mass 1 at rest at altitude 122, no
    drag, no wind, upright and on target. *)
Definition drop (time_step : R) : Simulator.t R :=
  construct 1 0.05 [0; 0; 122] [0; 0; 0] 0 [0; 0; 0] [0; 0] [0; 0]
    time_step false.

End ExactDefinitions.

Section Binary64Definitions.
Local Open Scope float_scope.

(** An upright body that turns very slowly backwards:
    [Body(angle=0, angle_vel=-1e-18)]. *)
Definition drifting : Body.t float :=
  Body_init 1 (num 0.05) [0; 0; 122] [0; 0; 0] 0 (num (-1e-18))
    [0; 0; 0] [0; 0] [0; 0] 0.

(** A body that turns at [1e308] degrees per unit of time:
    [Body(angle_vel=1e308)]. *)
Definition spinning : Body.t float :=
  Body_init 1 (num 0.05) [0; 0; 122] [0; 0; 0] 0 (num 1e308)
    [0; 0; 0] [0; 0] [0; 0] 0.

(** A body that moves at [1e200] along x: [Body(velocity=(1e200, 0, 0))]. *)
Definition speeding : Body.t float :=
  Body_init 1 (num 0.05) [0; 0; 122] [num 1e200; 0; 0] 0 0
    [0; 0; 0] [0; 0] [0; 0] 0.

(** A body of radius [1e-200]: [Body(radius=1e-200)]. *)
Definition pointlike : Body.t float :=
  Body_init 1 (num 1e-200) [0; 0; 122] [0; 0; 0] 0 0
    [0; 0; 0] [0; 0] [0; 0] 0.

(** A body far from its target and flying back towards it, after its
    errors were updated:
    [Body(position=(1e308, 0, 122), velocity=(-1e308, 0, 0))]. *)
Definition returning : Body.t float :=
  update_errors
    (Body_init 1 (num 0.05) [num 1e308; 0; 122] [num (-1e308); 0; 0] 0 0
       [0; 0; 0] [0; 0] [0; 0] 0).

(** A body with errors and velocities of moderate size, after its errors
    were updated: [Body(position=(100, -100, 122), velocity=(1, -2, 0),
    angle=270, angle_vel=3)]. *)
Definition off_target : Body.t float :=
  update_errors
    (Body_init 1 (num 0.05) [100; -100; 122] [1; -2; 0] 270 3
       [0; 0; 0] [0; 0] [0; 0] 0).

(** [Simulator(body)], with the defaults of [Simulator.__init__]. *)
Definition Simulator_default (b : Body.t float) : Simulator.t float :=
  Simulator_init b [0; 0] (num 0.01) false.

End Binary64Definitions.

(** * Tactics *)

Ltac literals := unfold Q2R in *; cbn [Qnum Qden] in *.

(** Peel the first call off a sequence that returned. *)
Ltac bind_inv H :=
  match type of H with
  | bind ?m _ = Ok _ =>
      let E := fresh "E" in
      destruct m eqn:E; cbn [bind] in H; [| discriminate H]
  end.

(** Turn a hypothesis on the length of a list into its elements. *)
Ltac list_shape l :=
  let H := fresh in
  match goal with
  | Hl : List.length l = _ |- _ =>
      rename Hl into H;
      destruct l as [| ? [| ? [| ? [| ? ?]]]]; try discriminate H; clear H
  end.

(** Evaluate the program, leaving the arithmetic alone. *)
Ltac symbolic :=
  cbn -[Rpymod Z.add Rtrigo_def.cos Rtrigo_def.sin pow clamp Q2R IZR fmt
        String.append correct_xy correct_angle].

(** Case analysis on the first test that blocks the evaluation. *)
Ltac split_if :=
  match goal with
  | |- context [if ?c then _ else _] => destruct c eqn:?
  end.

(** * Definitions used by the further statements *)

Section RecordDefinitions.
Context {T : Type}.

(** The thirteen recorded series of a simulator, in the order of
    [Simulator.__init__]. *)
Definition series (s : Simulator.t T) : list (list T) :=
  [Simulator.time s;
   Simulator.x_pos s; Simulator.y_pos s; Simulator.z_pos s;
   Simulator.x_vel s; Simulator.y_vel s; Simulator.z_vel s;
   Simulator.x_accel s; Simulator.y_accel s; Simulator.z_accel s;
   Simulator.angle s; Simulator.angle_vel s; Simulator.angle_accel s].

(** What [Body.__init__] files under constants. *)
Definition Body_constants (b : Body.t T) :=
  (Body.mass b, Body.radius b, Body.drag b, Body.target b,
   Body.target_vel b, Body.target_angle_vel b, Body.controller b).

(** The constants of the body, with the parameters of the simulator that
    no method assigns. *)
Definition constants (s : Simulator.t T) :=
  (Body_constants (Simulator.body s),
   Simulator.wind s, Simulator.time_step s, Simulator.debug s).

End RecordDefinitions.

Section ScenarioDefinitions.
Local Open Scope R_scope.

(** The simulator that [run_skydiver_simulation] builds. *)
Definition skydiver : Simulator.t R :=
  Simulator_init
    (Body_init 1 0.05 [0; 0; 122] [0; 0; 0] 181 0 [0; 0; 0] [-7; -15]
       [0; 0] 0)
    [0; 0] 0.01 true.

(** A frame around the skydiver whose accumulators hold 3, 4 and 5. *)
Definition mid_run : frame (T := R) :=
  {| self := skydiver; integral_x := 3; integral_y := 4;
     integral_ang := 5; stdout := [] |}.

End ScenarioDefinitions.

Section InputDefinitions.
Context {Rect : Type}.
Implicit Type d : Data_Cat.t Rect.

(** How many of the three fields of a box are active. *)
Definition active_fields d : nat :=
  (if Data_Cat.x_active d then 1 else 0)
  + (if Data_Cat.y_active d then 1 else 0)
  + (if Data_Cat.z_active d then 1 else 0).

(** No field is active, as [Data_Cat.__init__] leaves a box. *)
Definition idle d : Prop :=
  Data_Cat.x_active d = false /\ Data_Cat.y_active d = false /\
  Data_Cat.z_active d = false.

(** A box has the rectangles that its type reads: three for type 0, one
    for type 1, two for type 2; this is how [animate] builds its boxes. *)
Definition complete d : Prop :=
  match Data_Cat.type d with
  | Some 0%Z =>
      Data_Cat.x_input_rect d <> None /\ Data_Cat.y_input_rect d <> None /\
      Data_Cat.z_input_rect d <> None
  | Some 1%Z => Data_Cat.x_input_rect d <> None
  | Some 2%Z =>
      Data_Cat.x_input_rect d <> None /\ Data_Cat.y_input_rect d <> None
  | _ => True
  end.

End InputDefinitions.

(** * Verification *)

(** ** Exact arithmetic: the interface at [R] *)

Section RealFacts.
Local Open Scope R_scope.

Lemma Rltb_true (x y : R) : x < y -> Rltb x y = true.
Proof.
  intros Hlt. unfold Rltb.
  destruct (Rlt_dec x y); [reflexivity | contradiction].
Qed.

Lemma Rltb_false (x y : R) : y <= x -> Rltb x y = false.
Proof.
  intros Hle. unfold Rltb. destruct (Rlt_dec x y); [lra | reflexivity].
Qed.

Lemma Reqb_false (x y : R) : x <> y -> Reqb x y = false.
Proof.
  intros Hne. unfold Reqb.
  destruct (Req_dec_T x y); [contradiction | reflexivity].
Qed.

(** [x % y] lands in [[0, y)] for a positive [y]. *)
Lemma Rpymod_range (x y : R) : 0 < y -> 0 <= Rpymod x y < y.
Proof.
  intros Hy. unfold Rpymod.
  destruct (base_Int_part (x / y)) as [Hlo Hhi].
  assert (Hx : x = x / y * y) by (field; lra).
  set (k := IZR (Int_part (x / y))) in *.
  split.
  - assert (k * y <= x / y * y) by (apply Rmult_le_compat_r; lra). lra.
  - assert ((x / y - k) * y < 1 * y) by (apply Rmult_lt_compat_r; lra). lra.
Qed.

Lemma div_R (x y : R) : y <> 0 -> div x y = Ok (x / y).
Proof.
  intros Hy. unfold div. cbn. unfold Q2R; cbn.
  rewrite Reqb_false; [reflexivity | lra].
Qed.

Lemma mod_R (x y : R) : y <> 0 -> mod_ x y = Ok (Rpymod x y).
Proof.
  intros Hy. unfold mod_. cbn. unfold Q2R; cbn.
  rewrite Reqb_false; [reflexivity | lra].
Qed.

End RealFacts.

(** ** Comparisons in binary64 *)

Section Binary64Order.

Lemma SFcompare_antisym (x y : spec_float) :
  SFcompare y x = option_map CompOpp (SFcompare x y).
Proof.
  destruct x as [sx | sx | | sx mx ex], y as [sy | sy | | sy my ey]; cbn;
    try reflexivity;
    try (destruct sx; reflexivity); try (destruct sy; reflexivity);
    try (destruct sx, sy; reflexivity).
  pose proof (Pos.compare_cont_antisym mx my Eq) as Hm. cbn in Hm.
  destruct sx, sy; cbn; try reflexivity;
    rewrite (Z.compare_antisym ex ey);
    destruct (Z.compare ex ey); cbn; try reflexivity;
    rewrite <- Hm; destruct (Pos.compare_cont Eq mx my); reflexivity.
Qed.

Lemma SFcompare_refl (x : spec_float) :
  x <> S754_nan -> SFcompare x x = Some Eq.
Proof.
  destruct x as [s | s | | s m e]; cbn; intros Hx; try reflexivity;
    try (destruct s; reflexivity); try contradiction.
  destruct s; rewrite Z.compare_refl;
    fold (Pos.compare m m); rewrite Pos.compare_refl; reflexivity.
Qed.

Lemma is_nan_spec (x : float) :
  PrimFloat.is_nan x = false -> Prim2SF x <> S754_nan.
Proof.
  unfold PrimFloat.is_nan. rewrite FloatAxioms.eqb_spec. unfold SFeqb.
  intros Hn Hx. rewrite Hx in Hn. discriminate Hn.
Qed.

(** For numbers, not less means greater or equal. *)
Lemma not_ltb_leb (x y : float) :
  PrimFloat.is_nan x = false -> PrimFloat.is_nan y = false ->
  PrimFloat.ltb x y = false -> PrimFloat.leb y x = true.
Proof.
  intros Hx Hy. apply is_nan_spec in Hx, Hy.
  rewrite ltb_spec, leb_spec. unfold SFltb, SFleb.
  rewrite (SFcompare_antisym (Prim2SF x) (Prim2SF y)).
  destruct (SFcompare (Prim2SF x) (Prim2SF y)) as [[| |] |] eqn:E; cbn;
    try reflexivity; try discriminate.
  intros _. revert E.
  destruct (Prim2SF x) as [sx | sx | | sx mx ex],
           (Prim2SF y) as [sy | sy | | sy my ey];
    cbn; try discriminate; try contradiction.
Qed.

Lemma leb_refl (x : float) :
  PrimFloat.is_nan x = false -> PrimFloat.leb x x = true.
Proof.
  intros Hx. apply is_nan_spec in Hx.
  rewrite leb_spec. unfold SFleb. now rewrite SFcompare_refl.
Qed.

Lemma SFeqb_refl (x : spec_float) :
  SFeqb x x = match x with S754_nan => false | _ => true end.
Proof.
  unfold SFeqb. destruct x as [s | s | | s m e]; try reflexivity;
    rewrite SFcompare_refl by discriminate; reflexivity.
Qed.

Lemma is_nan_opp (x : float) :
  PrimFloat.is_nan (- x) = PrimFloat.is_nan x.
Proof.
  unfold PrimFloat.is_nan. rewrite !FloatAxioms.eqb_spec, opp_spec.
  rewrite !SFeqb_refl.
  destruct (Prim2SF x) as [s | s | | s m e]; reflexivity.
Qed.

(** A limit that is not negative lies above its negative. *)
Lemma leb_opp_self (lim : float) :
  PrimFloat.leb 0 lim = true -> PrimFloat.leb (- lim) lim = true.
Proof.
  rewrite !leb_spec, opp_spec. unfold SFleb.
  change (Prim2SF 0) with (S754_zero false).
  destruct (Prim2SF lim) as [s | s | | s m e]; cbn; try discriminate;
    try reflexivity; destruct s; cbn; try discriminate; reflexivity.
Qed.

Lemma leb_zero_not_nan (lim : float) :
  PrimFloat.leb 0 lim = true -> PrimFloat.is_nan lim = false.
Proof.
  unfold PrimFloat.is_nan. rewrite leb_spec, FloatAxioms.eqb_spec.
  rewrite SFeqb_refl. unfold SFleb.
  change (Prim2SF 0) with (S754_zero false).
  destruct (Prim2SF lim) as [s | s | | s m e]; cbn; try discriminate;
    reflexivity.
Qed.

(** Saturation in binary64: a number is brought between the two limits;
    NaN is not a number and passes through. *)
Lemma clamp_float_range (f lim : float) :
  PrimFloat.is_nan f = false ->
  PrimFloat.leb 0 lim = true ->
  PrimFloat.leb (- lim) (clamp f lim) = true /\
  PrimFloat.leb (clamp f lim) lim = true.
Proof.
  intros Hf Hl. pose proof (leb_zero_not_nan Hl) as Hn.
  assert (Hn' : PrimFloat.is_nan (- lim) = false)
    by now rewrite is_nan_opp.
  unfold clamp. cbn [ltb neg Num_float].
  destruct (PrimFloat.ltb lim f) eqn:E1.
  - split; [now apply leb_opp_self | now apply leb_refl].
  - destruct (PrimFloat.ltb f (- lim)) eqn:E2.
    + split; [now apply leb_refl | now apply leb_opp_self].
    + split; now apply not_ltb_leb.
Qed.

End Binary64Order.

(** ** Body.step *)

Section Step.
Context {T : Type} `{Num T}.
Local Open Scope num_scope.
Implicit Type b : Body.t T.

(** [Body.step] on three positions, three velocities and four
    accelerations, for numbers in which 360 is not zero. *)
Lemma step_returns b x y z vx vy vz ax ay az alpha dt :
  Body.position b = [x; y; z] ->
  Body.velocity b = [vx; vy; vz] ->
  eqb (num 360) (num 0) = false ->
  let vx' := vx + ax * dt in
  let vy' := vy + ay * dt in
  let vz' := vz + az * dt in
  let w' := Body.angle_vel b + alpha * dt in
  step b [ax; ay; az; alpha] dt =
    Ok (Body.set_angle
          (Body.set_angle_vel
             (Body.set_position
                (Body.set_velocity b [vx'; vy'; vz'])
                [x + vx' * dt; y + vy' * dt; z + vz' * dt])
             w')
          (wrap_heading (Body.angle b + w' * dt))).
Proof.
  intros Hp Hv H360. destruct b; cbn in Hp, Hv; subst.
  unfold step, wrap_heading, mod_. cbn. rewrite H360. cbn.
  match goal with
  | |- context [if ?c then _ else _] => destruct c
  end; reflexivity.
Qed.

(** C3, as the code has it. [Body.step] on a body with three position and
    three velocity components, a 4-tuple of accelerations and any [dt]
    raises nothing and is one step of semi-implicit Euler: every velocity
    component grows by its acceleration times [dt], every position
    component by the new velocity times [dt], the angular velocity by
    [alpha * dt], and the heading by the new angular velocity times [dt];
    the heading stored is that angle [% 360], with 360 added when the
    remainder is negative. Nothing else changes. Whether the stored heading
    lies in [0, 360) is not part of the statement. *)
Theorem step_semi_implicit_euler b x y z vx vy vz ax ay az alpha dt :
  Body.position b = [x; y; z] ->
  Body.velocity b = [vx; vy; vz] ->
  eqb (num 360) (num 0) = false ->
  exists b',
    step b [ax; ay; az; alpha] dt = Ok b' /\
    let vx' := vx + ax * dt in
    let vy' := vy + ay * dt in
    let vz' := vz + az * dt in
    let w' := Body.angle_vel b + alpha * dt in
    Body.velocity b' = [vx'; vy'; vz'] /\
    Body.position b' = [x + vx' * dt; y + vy' * dt; z + vz' * dt] /\
    Body.angle_vel b' = w' /\
    Body.angle b' = wrap_heading (Body.angle b + w' * dt) /\
    b' = Body.set_angle
           (Body.set_angle_vel
              (Body.set_position
                 (Body.set_velocity b (Body.velocity b'))
                 (Body.position b'))
              (Body.angle_vel b'))
           (Body.angle b').
Proof.
  intros Hp Hv H360. eexists.
  split; [apply step_returns; eassumption |].
  destruct b; cbn. repeat split; reflexivity.
Qed.

End Step.

Section StepExact.
Local Open Scope R_scope.
Implicit Type b : Body.t R.

Lemma step_exact b x y z vx vy vz ax ay az alpha dt :
  Body.position b = [x; y; z] ->
  Body.velocity b = [vx; vy; vz] ->
  step b [ax; ay; az; alpha] dt =
    Ok (stepped b
          [vx + ax * dt; vy + ay * dt; vz + az * dt]
          [x + (vx + ax * dt) * dt; y + (vy + ay * dt) * dt;
           z + (vz + az * dt) * dt]
          alpha dt).
Proof.
  intros Hp Hv. destruct b; cbn in Hp, Hv; subst.
  unfold step, stepped; cbn.
  rewrite mod_R by (literals; lra).
  cbn. literals.
  replace (360 * / 1) with 360 by lra.
  rewrite Rltb_false; [reflexivity |].
  match goal with
  | |- _ <= Rpymod ?a ?m => pose proof (Rpymod_range a (y := m))
  end.
  lra.
Qed.

(** In exact arithmetic the heading is in [0, 360) after every step that
    returns, whatever the body and the accelerations were before. *)
Lemma step_heading_range_exact b (net_accel : list R) dt b' :
  step b net_accel dt = Ok b' -> 0 <= Body.angle b' < 360.
Proof.
  unfold step.
  destruct (for_range 0 3 (step_axis net_accel dt) b) as [b1|]; cbn;
    [| discriminate].
  destruct (getitem net_accel 3) as [alpha|]; cbn; [| discriminate].
  destruct b1. rewrite mod_R by (literals; lra). cbn.
  cbn. literals.
  replace (360 * / 1) with 360 by lra. replace (0 * / 1) with 0 by lra.
  match goal with
  | |- context [Rpymod ?a ?m] => pose proof (Rpymod_range a (y := m)) as Hr
  end.
  rewrite Rltb_false by lra.
  intros [= <-]. cbn. lra.
Qed.

End StepExact.

Section StepBinary64.
Local Open Scope float_scope.

Lemma step_semi_implicit_euler_witness :
  exists b',
    step (Body_init 1 (num 0.05) [0; 0; 122] [1; 2; 3] 350 100
            [0; 0; 0] [0; 0] [0; 0] 0) [1; 1; -10; 40] 0.5 = Ok b' /\
    Body.velocity b' = [1.5; 2.5; -2] /\
    Body.position b' = [0.75; 1.25; 121] /\
    Body.angle_vel b' = 120 /\
    Body.angle b' = 50.
Proof.
  assert (H360 : eqb (num 360) (num 0) = false)
    by (vm_compute; reflexivity).
  destruct (@step_semi_implicit_euler float _
              (Body_init 1 (num 0.05) [0; 0; 122] [1; 2; 3] 350 100
                 [0; 0; 0] [0; 0] [0; 0] 0)
              0 0 122 1 2 3 1 1 (-10) 40 0.5 eq_refl eq_refl H360)
    as [b' [Hs [Hv [Hp [Hw [Ha _]]]]]].
  exists b'. split; [exact Hs |].
  split; [rewrite Hv; vm_compute; reflexivity |].
  split; [rewrite Hp; vm_compute; reflexivity |].
  split; [rewrite Hw; vm_compute; reflexivity |].
  rewrite Ha. vm_compute. reflexivity.
Defined.

(** The heading that an overflow leaves. [spinning] turns at [1e308]
    degrees per unit of time; stepped over [dt = 1] with the angular
    acceleration [1e308], all finite, its angular velocity becomes
    infinite, so does the angle, and [% 360] of an infinity is NaN: the
    step raises nothing and stores a heading that is not a number, below
    360 in no sense and above 0 in none. *)
Lemma step_heading_not_a_number :
  exists b',
    forallb PrimFloat.is_finite
      ([Body.angle spinning; Body.angle_vel spinning; 1]
         ++ Body.position spinning ++ Body.velocity spinning
         ++ [0; 0; 0; num 1e308]) = true /\
    (0 <? 1) = true /\
    step spinning [0; 0; 0; num 1e308] 1 = Ok b' /\
    PrimFloat.is_nan (Body.angle b') = true /\
    (0 <=? Body.angle b') = false /\
    (Body.angle b' <? 360) = false.
Proof. vm_compute. eexists. repeat split. Qed.

End StepBinary64.

(** ** The force model *)

Section ForceModel.
Context {T : Type} `{Num T} `{Power T} `{MathLib T}.
Local Open Scope num_scope.
Implicit Type b : Body.t T.
Implicit Type s : Simulator.t T.

(** C2, as the code has it. Take a body with three drag coefficients,
    three velocity components and two force components, a wind pair, and
    numbers in which 2, [math.pi] and [180 / math.pi] are not zero. Let
    [theta] be the heading divided by [180 / math.pi] and [moi] be
    [1/2 * mass * radius ** 2]. When none of the four squares
    [radius ** 2], [vx ** 2], [vy ** 2], [vz ** 2] is out of range, the
    cosine and the sine of [theta] are defined and neither [mass] nor [moi]
    is zero, [net_accel] returns exactly the four accelerations of the
    force model, with gravity [-9.81]; otherwise it raises
    [OverflowError], [ValueError] or [ZeroDivisionError]. The drag terms
    square the velocity and do not restore its sign: where squaring
    forgets the sign, reversing the velocity leaves the outcome unchanged.
    [net_accel] is a function of the body and the simulator and returns
    the tuple only. *)
Theorem net_accel_formula b s dx dy dz vx vy vz wx wy fx fy :
  Body.drag b = [dx; dy; dz] ->
  Body.velocity b = [vx; vy; vz] ->
  Simulator.wind s = [wx; wy] ->
  Body.xy_force b = [fx; fy] ->
  eqb (num 2) (num 0) = false ->
  eqb pi (num 0) = false ->
  eqb (fdiv (num 180) pi) (num 0) = false ->
  let mass := Body.mass b in
  let gravity := - num 9.81 in
  let theta := fdiv (Body.angle b) (fdiv (num 180) pi) in
  let moi := fdiv (num 1) (num 2) * mass * sq (Body.radius b) in
  let ax :=
    fdiv (dx * sq vx + wx + fx * cos theta + fy * sin theta) mass in
  let ay :=
    fdiv (dy * sq vy + wy + fy * cos theta + fx * sin theta) mass in
  let az := fdiv (gravity * mass + dz * sq vz) mass in
  let alpha := fdiv (Body.angle_force b) moi in
  let raises :=
    sq_overflows (Body.radius b) || sq_overflows vx || sq_overflows vy
    || sq_overflows vz
    || math_error theta (cos theta) || math_error theta (sin theta)
    || eqb mass (num 0) || eqb moi (num 0) in
  (raises = false -> net_accel b s = Ok [ax; ay; az; alpha]) /\
  (raises = true ->
   exists e,
     net_accel b s = Raise e /\
     (e = OverflowError \/ e = ValueError \/ e = ZeroDivisionError)) /\
  ((forall x, sq (- x) = sq x) ->
   (forall x, sq_overflows (- x) = sq_overflows x) ->
   net_accel (Body.set_velocity b [- vx; - vy; - vz]) s = net_accel b s).
Proof.
  intros Hd Hv Hw Hf H2 Hpi Hc. cbv zeta.
  destruct b; cbn in Hd, Hv, Hf; subst.
  unfold net_accel, pow2, math_cos, math_sin, div.
  cbn [Body.drag Body.velocity Body.xy_force Body.mass Body.radius
       Body.angle Body.angle_force Body.set_velocity].
  rewrite Hw.
  repeat first [rewrite H2 | rewrite Hpi | rewrite Hc
               | progress cbn [getitem nth_error bind]].
  split; [| split].
  - intros Hr.
    repeat (apply orb_false_elim in Hr; destruct Hr as [Hr ?]).
    repeat match goal with
           | E : ?c = false |- context [if ?c then _ else _] =>
               rewrite E; cbn [bind]
           end.
    reflexivity.
  - repeat match goal with
           | |- context [if ?c then _ else _] =>
               destruct c; cbn [bind orb]
           end;
      intros Hr;
      try discriminate Hr;
      eexists; (split; [reflexivity | tauto]).
  - intros Hs Ho. rewrite !Hs, !Ho. reflexivity.
Qed.

End ForceModel.

Section ForceModelExact.
Local Open Scope R_scope.
Implicit Type b : Body.t R.
Implicit Type s : Simulator.t R.

Lemma list4_eq (a b c d a' b' c' d' : R) :
  a = a' -> b = b' -> c = c' -> d = d' -> [a; b; c; d] = [a'; b'; c'; d'].
Proof. congruence. Qed.

Lemma convert_neq0 : Q2R 180 / PI <> 0.
Proof.
  literals. unfold Rdiv. apply Rmult_integral_contrapositive_currified;
    [lra | apply Rinv_neq_0_compat; apply PI_neq0].
Qed.

Lemma net_accel_exact b s dx dy dz vx vy vz wx wy fx fy :
  Body.drag b = [dx; dy; dz] ->
  Body.velocity b = [vx; vy; vz] ->
  Simulator.wind s = [wx; wy] ->
  Body.xy_force b = [fx; fy] ->
  Body.mass b <> 0 ->
  Body.radius b <> 0 ->
  let m := Body.mass b in
  let th := radians (Body.angle b) in
  net_accel b s =
    Ok [(dx * vx ^ 2 + wx + fx * cos th + fy * sin th) / m;
        (dy * vy ^ 2 + wy + fy * cos th + fx * sin th) / m;
        (-9.81 * m + dz * vz ^ 2) / m;
        Body.angle_force b / (m * Body.radius b ^ 2 / 2)].
Proof.
  intros Hd Hv Hw Hf Hm Hr m th. subst m th.
  unfold net_accel, pow2, math_cos, math_sin. rewrite Hd, Hv, Hw, Hf. cbn.
  assert (Hpi : PI <> 0) by apply PI_neq0.
  rewrite (div_R (Q2R 1)) by (literals; lra).
  cbn. rewrite (div_R (Q2R 180)) by exact Hpi.
  pose proof convert_neq0 as Hc.
  cbn. rewrite !(div_R (Body.angle b)) by exact Hc.
  cbn. rewrite !(div_R _ (y := Body.mass b)) by exact Hm.
  cbn. rewrite div_R.
  2:{ literals. repeat apply Rmult_integral_contrapositive_currified;
        try lra; try assumption. }
  replace (Body.angle b / (Q2R 180 / PI)) with (radians (Body.angle b)).
  2:{ unfold radians. literals. field. exact Hpi. }
  cbn [bind]. literals.
  apply f_equal. apply list4_eq; field; repeat split; assumption.
Qed.

Lemma net_accel_formula_witness :
  let b := Body_init 2 (1 / 20) [0; 0; 122] [3; -4; -5] 90 0 [1; 1; 1]
             [0; 0] [10; 20] 1 in
  let s := Simulator_init b [1; 2] (1 / 100) false in
  let theta := 90 / (180 / PI) in
  net_accel b s
  = Ok [(1 * 3 ^ 2 + 1 + 10 * Rtrigo_def.cos theta
           + 20 * Rtrigo_def.sin theta) / 2;
        (1 * (-4) ^ 2 + 2 + 20 * Rtrigo_def.cos theta
           + 10 * Rtrigo_def.sin theta) / 2;
        (-9.81 * 2 + 1 * (-5) ^ 2) / 2;
        1 / (1 / 2 * 2 * (1 / 20) ^ 2)] /\
  net_accel (Body.set_velocity b [- 3; - -4; - -5]) s = net_accel b s.
Proof.
  intros b s theta.
  assert (H2 : @eqb R _ (num 2) (num 0) = false)
    by (apply Reqb_false; cbn; literals; lra).
  assert (Hpi : @eqb R _ pi (num 0) = false)
    by (apply Reqb_false; cbn; literals; pose proof PI_neq0; lra).
  assert (Hc : @eqb R _ (fdiv (num 180) pi) (num 0) = false)
    by (apply Reqb_false; pose proof convert_neq0; cbn; literals; lra).
  destruct (@net_accel_formula R _ _ _ b s 1 1 1 3 (-4) (-5) 1 2 10 20
              eq_refl eq_refl eq_refl eq_refl H2 Hpi Hc)
    as [Hok [_ Hrev]].
  split.
  - rewrite Hok.
    + subst theta. cbn. literals.
      replace (180 * / 1) with 180 by lra.
      replace (1 * / 1 / (2 * / 1)) with (1 / 2) by lra.
      apply f_equal, list4_eq; lra.
    + cbn. rewrite !Reqb_false; [reflexivity | literals; lra ..].
  - apply Hrev; intros x; cbn; [ring | reflexivity].
Defined.

End ForceModelExact.

Section ForceModelBinary64.
Local Open Scope float_scope.

(** Squaring forgets the sign in binary64 too. *)
Lemma sq_neg_float (x : float) :
  sq (- x) = sq x /\ sq_overflows (- x) = sq_overflows x.
Proof.
  assert (Hm : (- x) * (- x) = x * x).
  { apply Prim2SF_inj. rewrite !mul_spec, !opp_spec.
    destruct (Prim2SF x) as [[] | [] | | [] m e]; reflexivity. }
  assert (Hf : PrimFloat.is_finite (- x) = PrimFloat.is_finite x).
  { unfold PrimFloat.is_finite, PrimFloat.is_infinity.
    rewrite is_nan_opp. f_equal. f_equal.
    rewrite !FloatAxioms.eqb_spec, !abs_spec, opp_spec.
    destruct (Prim2SF x) as [[] | [] | | [] m e]; reflexivity. }
  split; cbn; [exact Hm | rewrite Hm, Hf; reflexivity].
Qed.

(** Two finite bodies on which [net_accel] does not return, whatever the
    C library computes for the cosine and the sine. [speeding] moves at
    [1e200] along x: the square of its velocity is out of range and [**]
    raises [OverflowError]. [pointlike] has the radius [1e-200], which is
    not zero: its square underflows to zero, so does the moment of
    inertia, and the last division raises [ZeroDivisionError]. *)
Lemma net_accel_out_of_range :
  forallb PrimFloat.is_finite (Body.velocity speeding) = true /\
  (forall libm_cos libm_sin : float -> float,
      @net_accel float _ _ (MathLib_float libm_cos libm_sin)
        speeding (Simulator_default speeding) = Raise OverflowError) /\
  PrimFloat.is_finite (Body.radius pointlike) = true /\
  (Body.radius pointlike =? 0) = false /\
  (forall libm_cos libm_sin : float -> float,
      libm_cos 0 = 1 -> libm_sin 0 = 0 ->
      @net_accel float _ _ (MathLib_float libm_cos libm_sin)
        pointlike (Simulator_default pointlike) = Raise ZeroDivisionError).
Proof.
  split; [vm_compute; reflexivity |].
  split; [intros c s; vm_compute; reflexivity |].
  split; [vm_compute; reflexivity |].
  split; [vm_compute; reflexivity |].
  intros c s Hc Hs. vm_compute. rewrite Hc, Hs. vm_compute. reflexivity.
Qed.

End ForceModelBinary64.

(** ** The controller *)

Section ControllerClamp.
Context {T : Type} `{Num T}.
Local Open Scope num_scope.
Implicit Type b : Body.t T.

Lemma correct_xy_exact b ix iy e0 e1 le v0 v1 lv :
  Body.pos_error b = e0 :: e1 :: le ->
  Body.velocity b = v0 :: v1 :: lv ->
  let c := Body.controller b in
  correct_xy b ix iy =
    Ok (Body.set_xy_force b
          [clamp (e0 * - Controller.p c + v0 * - Controller.d c
                  + ix * - Controller.i c) (Controller.force_lim c);
           clamp (e1 * - Controller.p c + v1 * - Controller.d c
                  + iy * - Controller.i c) (Controller.force_lim c)]).
Proof.
  intros He Hv. unfold correct_xy. rewrite He, Hv. reflexivity.
Qed.

Lemma correct_angle_exact b ia :
  let c := Body.controller b in
  correct_angle b ia =
    Body.set_angle_force b
      (clamp (Body.ang_error b * - Controller.ang_p c
              + Body.ang_vel_error b * - Controller.ang_d c
              + ia * - Controller.ang_i c) (Controller.angle_force_lim c)).
Proof. reflexivity. Qed.

End ControllerClamp.

Section ControllerBinary64.
Local Open Scope float_scope.
Implicit Type b : Body.t float.

(** C6, as the code has it, in binary64. Take a body with two error and
    two velocity components whose controller has limits that are not
    negative (the limits every constructed body has, 50 and 10), and any
    integral arguments. [correct_xy] stores the clamp of
    [pos_error[k] * -p + velocity[k] * -d + integral_k * -i] for [k] in
    x, y, and [correct_angle] the clamp of [ang_error * -ang_p +
    ang_vel_error * -ang_d + integral_ang * -ang_i]; the derivative term of
    [correct_xy] reads the velocity, not the velocity error. A force whose
    value before the clamp is a number lies within plus and minus the
    limit. Nothing is said of a force whose value before the clamp is
    NaN. *)
Theorem controller_saturation b ix iy ia e0 e1 le v0 v1 lv :
  Body.pos_error b = e0 :: e1 :: le ->
  Body.velocity b = v0 :: v1 :: lv ->
  (0 <=? Controller.force_lim (Body.controller b)) = true ->
  (0 <=? Controller.angle_force_lim (Body.controller b)) = true ->
  let c := Body.controller b in
  let lim := Controller.force_lim c in
  let alim := Controller.angle_force_lim c in
  let force_x :=
    e0 * - Controller.p c + v0 * - Controller.d c + ix * - Controller.i c in
  let force_y :=
    e1 * - Controller.p c + v1 * - Controller.d c + iy * - Controller.i c in
  let ang_force :=
    Body.ang_error b * - Controller.ang_p c
    + Body.ang_vel_error b * - Controller.ang_d c
    + ia * - Controller.ang_i c in
  (exists fx fy,
      correct_xy b ix iy = Ok (Body.set_xy_force b [fx; fy]) /\
      fx = clamp force_x lim /\ fy = clamp force_y lim /\
      (PrimFloat.is_nan force_x = false ->
       (- lim <=? fx) = true /\ (fx <=? lim) = true) /\
      (PrimFloat.is_nan force_y = false ->
       (- lim <=? fy) = true /\ (fy <=? lim) = true)) /\
  correct_angle b ia = Body.set_angle_force b (clamp ang_force alim) /\
  (PrimFloat.is_nan ang_force = false ->
   (- alim <=? Body.angle_force (correct_angle b ia)) = true /\
   (Body.angle_force (correct_angle b ia) <=? alim) = true).
Proof.
  intros He Hv Hlim Halim. cbv zeta. split; [| split].
  - do 2 eexists.
    split; [exact (correct_xy_exact b ix iy He Hv) |].
    cbv zeta. split; [reflexivity |]. split; [reflexivity |].
    split; intros Hn; apply clamp_float_range; assumption.
  - exact (correct_angle_exact b ia).
  - intros Hn. rewrite correct_angle_exact. cbv zeta. destruct b.
    cbn [Body.set_angle_force Body.angle_force].
    apply clamp_float_range; assumption.
Qed.

Lemma controller_saturation_witness :
  (exists fx fy,
      correct_xy off_target 0 0
        = Ok (Body.set_xy_force off_target [fx; fy]) /\
      fx = -50 /\ fy = 50 /\
      (- 50 <=? fx) = true /\ (fx <=? 50) = true /\
      (- 50 <=? fy) = true /\ (fy <=? 50) = true) /\
  Body.angle_force (correct_angle off_target 0) = 10 /\
  (- 10 <=? Body.angle_force (correct_angle off_target 0)) = true /\
  (Body.angle_force (correct_angle off_target 0) <=? 10) = true.
Proof.
  assert (Hl : (0 <=? Controller.force_lim (Body.controller off_target))
               = true) by (vm_compute; reflexivity).
  assert (Ha : (0 <=? Controller.angle_force_lim
                        (Body.controller off_target)) = true)
    by (vm_compute; reflexivity).
  destruct (@controller_saturation off_target 0 0 0 100 (-100) [] 1 (-2)
              [0] eq_refl eq_refl Hl Ha)
    as [[fx [fy [Hxy [Hfx [Hfy [Hx Hy]]]]]] [Hang Hrange]].
  split.
  - exists fx, fy. split; [exact Hxy |].
    split; [rewrite Hfx; vm_compute; reflexivity |].
    split; [rewrite Hfy; vm_compute; reflexivity |].
    destruct Hx as [Hx1 Hx2]; [vm_compute; reflexivity |].
    destruct Hy as [Hy1 Hy2]; [vm_compute; reflexivity |].
    repeat split; assumption.
  - split; [rewrite Hang; vm_compute; reflexivity |].
    apply Hrange. vm_compute. reflexivity.
Defined.

(** A force that no limit holds. [returning] is at [1e308] along x, so its
    position error there is [1e308], and flies back at [-1e308]. With the
    gains 15 and 5 the proportional term is minus infinity and the
    derivative term plus infinity; their sum is NaN, neither test of the
    clamp fires, and the force stored along x is NaN: not within
    plus and minus 50. *)
Lemma force_not_a_number :
  exists b' fx fy,
    forallb PrimFloat.is_finite
      (Body.position returning ++ Body.velocity returning
         ++ Body.pos_error returning) = true /\
    Controller.force_lim (Body.controller returning) = 50 /\
    correct_xy returning 0 0 = Ok b' /\
    Body.xy_force b' = [fx; fy] /\
    PrimFloat.is_nan fx = true /\
    (- 50 <=? fx) = false /\ (fx <=? 50) = false.
Proof. vm_compute. do 3 eexists. repeat split. Qed.

End ControllerBinary64.

Section ControllerExact.
Local Open Scope R_scope.

(** Every value [Controller_init] stores, read in exact arithmetic. *)
Lemma Controller_init_exact :
  @Controller_init R _ =
    Controller.mk 50 10 15 (15 / 100) 5 2 (1 / 1000) (2 / 10).
Proof.
  unfold Controller_init. cbn. literals.
  f_equal; lra.
Qed.

(** C10. Whatever arguments [Body.__init__] receives, the body owns a
    controller with [p = 15], [i = 0.15], [d = 5], [ang_p = 2],
    [ang_i = 0.001], [ang_d = 0.2], [force_lim = 50] and
    [angle_force_lim = 10]; [Controller.__init__] and
    [Simulator.__init__] take no gain or limit, and a simulator built
    around the body holds that same controller. *)
Theorem controller_constants_fixed
    (mass radius : R) (position velocity : list R) (angle angle_vel : R)
    (drag target xy_force : list R) (angle_force : R)
    (wind_accel : list R) (time_step : R) (debug : bool) :
  let b := Body_init mass radius position velocity angle angle_vel drag
             target xy_force angle_force in
  let c := Body.controller b in
  c = Controller_init /\
  Controller.p c = 15 /\ Controller.i c = 0.15 /\ Controller.d c = 5 /\
  Controller.ang_p c = 2 /\ Controller.ang_i c = 0.001 /\
  Controller.ang_d c = 0.2 /\
  Controller.force_lim c = 50 /\ Controller.angle_force_lim c = 10 /\
  Body.controller
    (Simulator.body (Simulator_init b wind_accel time_step debug)) = c.
Proof.
  cbv zeta. cbn. literals. repeat split; try reflexivity; lra.
Qed.
End ControllerExact.

(** ** One pass of the loop *)

Section TickInversion.
Context {T : Type} `{Num T} `{Power T} `{MathLib T} `{Format T}.
Local Open Scope num_scope.
Implicit Type b : Body.t T.
Implicit Type fr : frame (T := T).

(** What a pass that returns has done: the calls it made, in order, and
    where their results went. *)
Lemma tick_inv fr fr' :
  tick fr = Ok fr' ->
  let s := self fr in
  let s' := self fr' in
  exists body_accel b1,
    net_accel (Simulator.body s) s = Ok body_accel /\
    step (Simulator.body s) body_accel step_default_time_step = Ok b1 /\
    correct_xy (correct_angle (update_errors b1) (integral_ang fr))
               (integral_x fr) (integral_y fr) = Ok (Simulator.body s') /\
    Simulator.step_count s' = (Simulator.step_count s + 1)%Z /\
    Simulator.time_step s' = Simulator.time_step s /\
    Simulator.wind s' = Simulator.wind s /\
    Simulator.debug s' = Simulator.debug s /\
    Simulator.time s' =
      Simulator.time s
      ++ [Simulator.time_step s * of_Z (Simulator.step_count s + 1)] /\
    (exists e0 e1,
        getitem (Body.pos_error (Simulator.body s')) 0 = Ok e0 /\
        getitem (Body.pos_error (Simulator.body s')) 1 = Ok e1 /\
        integral_x fr' = integral_policy (integral_x fr) e0 /\
        integral_y fr' = integral_policy (integral_y fr) e1) /\
    integral_ang fr' =
      integral_policy (integral_ang fr) (Body.ang_error (Simulator.body s')).
Proof.
  intros Ht. cbv zeta. destruct fr as [s ix iy ia out]. destruct s.
  unfold tick in Ht. cbn [self integral_x integral_y integral_ang stdout
    Simulator.body] in Ht.
  bind_inv Ht. bind_inv Ht.
  cbn [Simulator.set_body Simulator.set_step_count Simulator.body
       Simulator.step_count Simulator.time_step Simulator.wind
       Simulator.debug Simulator.time] in Ht.
  rewrite Z.mod_1_r in Ht. cbn [Z.eqb] in Ht.
  do 16 bind_inv Ht.
  injection Ht as <-.
  cbn [self integral_x integral_y integral_ang Simulator.body
       Simulator.step_count Simulator.time_step Simulator.wind
       Simulator.debug Simulator.time].
  exists a, a0. repeat split; try assumption.
  exists a2, a4. unfold integral_policy. repeat split; try assumption.
  - destruct (a2 <? num 1); congruence.
  - destruct (a4 <? num 1); congruence.
Qed.

End TickInversion.

Section TickExact.
Context {F : Format R}.
Local Open Scope R_scope.
Implicit Type b : Body.t R.
Implicit Type s : Simulator.t R.
Implicit Type fr : frame (T := R).

(** On a well-formed simulator a pass raises nothing and leaves a
    well-formed simulator; vertically it is one step of size 0.01, whatever
    [time_step] the simulator holds. *)
Lemma tick_vertical fr :
  well_formed (self fr) ->
  exists fr',
    tick fr = Ok fr' /\ well_formed (self fr') /\
    let b := Simulator.body (self fr) in
    let b' := Simulator.body (self fr') in
    forall z vz dz,
      getitem (Body.position b) 2 = Ok z ->
      getitem (Body.velocity b) 2 = Ok vz ->
      getitem (Body.drag b) 2 = Ok dz ->
      let vz' := vz + z_accel_of b dz vz * 0.01 in
      getitem (Body.velocity b') 2 = Ok vz' /\
      getitem (Body.position b') 2 = Ok (z + vz' * 0.01) /\
      Body.drag b' = Body.drag b /\
      Body.mass b' = Body.mass b.
Proof.
  intros [Hp Hv Hd Ht Hf Hw Hm Hr].
  destruct fr as [s ix iy ia out]. cbn [self] in *.
  destruct s as [dbg b ts n wind tm xp yp zp xv yv zv xa ya za an av aa].
  cbn [Simulator.body Simulator.wind] in *.
  destruct b as [m r drag target tv tav c pos vel ang angv pe ve ae ave
                 xyf af].
  cbn [Body.position Body.velocity Body.drag Body.target Body.xy_force
       Body.mass Body.radius] in *.
  list_shape pos. list_shape vel. list_shape drag. list_shape target.
  list_shape xyf. list_shape wind.
  unfold tick. cbn [self Simulator.body].
  erewrite net_accel_exact; try reflexivity; try assumption.
  cbn [bind].
  erewrite step_exact; try reflexivity.
  cbn [bind]. unfold stepped.
  symbolic.
  rewrite Z.mod_1_r. cbn [Z.eqb].
  unfold update_angle_error, update_pos_error, update_vel_error,
    update_ang_vel_error.
  symbolic. split_if.
  all: rewrite correct_angle_exact; symbolic.
  all: erewrite correct_xy_exact by reflexivity.
  all: repeat (symbolic; split_if).
  all: eexists; split; [reflexivity |].
  all: split; [constructor; cbn; try reflexivity; assumption |].
  all: cbn; intros z vz dz [= <-] [= <-] [= <-]; unfold z_accel_of; cbn.
  all: literals; repeat split; repeat f_equal; lra.
Qed.

End TickExact.

(** ** The fall under gravity alone *)

Section Fall.
Context {F : Format R}.
Local Open Scope R_scope.
Implicit Type b : Body.t R.
Implicit Type s : Simulator.t R.
Implicit Type fr : frame (T := R).

Lemma fall_velocity_S n :
  fall_velocity (S n) = fall_velocity n + -9.81 * 0.01.
Proof. unfold fall_velocity. rewrite S_INR. lra. Qed.

Lemma fall_altitude_S z0 n :
  fall_altitude z0 (S n) = fall_altitude z0 n + fall_velocity (S n) * 0.01.
Proof. unfold fall_altitude, fall_velocity. rewrite S_INR. lra. Qed.

Lemma loop_landed fuel fr z :
  getitem (Body.position (Simulator.body (self fr))) 2 = Ok z ->
  z <= 0 ->
  loop fuel fr = Some (Ok fr).
Proof.
  intros Hz Hle. destruct fuel; cbn [loop]; rewrite Hz; cbn;
    literals; rewrite Rltb_false by lra; reflexivity.
Qed.

Lemma loop_airborne fuel fr fr' z :
  getitem (Body.position (Simulator.body (self fr))) 2 = Ok z ->
  0 < z ->
  tick fr = Ok fr' ->
  loop (S fuel) fr = loop fuel fr'.
Proof.
  intros Hz Hlt Ht. cbn [loop]. rewrite Hz. cbn. literals.
  rewrite Rltb_true by lra. rewrite Ht. reflexivity.
Qed.

(** From the [n]-th point of the fall, [k] more passes bring the body to
    the [n + k]-th point, and the loop stops there if that is the first
    point at or below ground. *)
Lemma loop_fall z0 k : forall n fuel fr,
  well_formed (self fr) ->
  getitem (Body.position (Simulator.body (self fr))) 2
    = Ok (fall_altitude z0 n) ->
  getitem (Body.velocity (Simulator.body (self fr))) 2
    = Ok (fall_velocity n) ->
  getitem (Body.drag (Simulator.body (self fr))) 2 = Ok 0 ->
  (forall j, (n <= j < n + k)%nat -> 0 < fall_altitude z0 j) ->
  fall_altitude z0 (n + k) <= 0 ->
  (k <= fuel)%nat ->
  exists fr',
    loop fuel fr = Some (Ok fr') /\
    Simulator.step_count (self fr')
      = (Simulator.step_count (self fr) + Z.of_nat k)%Z /\
    Simulator.time_step (self fr') = Simulator.time_step (self fr) /\
    getitem (Body.position (Simulator.body (self fr'))) 2
      = Ok (fall_altitude z0 (n + k)).
Proof.
  induction k as [| k IH]; intros n fuel fr Hwf Hz Hv Hd Hair Hland Hfuel.
  - rewrite Nat.add_0_r in *. exists fr.
    rewrite (@loop_landed fuel fr _ Hz Hland).
    repeat split; try assumption. lia.
  - destruct fuel as [| fuel]; [lia |].
    destruct (tick_vertical fr Hwf) as [fr1 [Ht [Hwf1 Hvert]]].
    cbv zeta in Hvert.
  destruct (Hvert _ _ _ Hz Hv Hd) as [Hv1 [Hz1 [Hd1 Hm1]]].
    rewrite (@loop_airborne fuel fr fr1 _ Hz (Hair n ltac:(lia)) Ht).
    assert (Ha : z_accel_of (Simulator.body (self fr)) 0 (fall_velocity n)
                 = -9.81).
    { unfold z_accel_of. field. apply Hwf. }
    rewrite Ha in Hv1, Hz1.
    rewrite <- fall_velocity_S in Hv1, Hz1.
    rewrite <- fall_altitude_S in Hz1.
    destruct (@tick_inv _ _ _ _ _ fr fr1 Ht)
      as [acc [b1 [_ [_ [_ [Hc [Hts _]]]]]]].
    cbv zeta in Hc, Hts.
    destruct (IH (S n) fuel fr1 Hwf1 Hz1 Hv1) as [fr' [Hl [Hc' [Hts' Hz']]]].
    + rewrite Hd1. exact Hd.
    + intros j Hj. apply Hair. lia.
    + replace (S n + k)%nat with (n + S k)%nat by lia. exact Hland.
    + lia.
    + exists fr'. split; [exact Hl |].
      replace (n + S k)%nat with (S n + k)%nat by lia.
      repeat split; try assumption; try congruence. rewrite Hc', Hc. lia.
Qed.

Lemma fall_122_airborne j : (j < 499)%nat -> 0 < fall_altitude 122 j.
Proof.
  intros Hj. unfold fall_altitude.
  assert (H0 : 0 <= INR j) by apply pos_INR.
  assert (H1 : INR j <= 498).
  { replace 498 with (INR 498) by (simpl; lra). apply le_INR. lia. }
  nra.
Qed.

Lemma fall_122_landed : fall_altitude 122 499 <= 0.
Proof.
  unfold fall_altitude. replace (INR 499) with 499 by (simpl; lra). lra.
Qed.

End Fall.

Section FallCount.
Context {F : Format R}.
Local Open Scope R_scope.
Implicit Type s : Simulator.t R.
Implicit Type fr : frame (T := R).

(** A well-formed simulator whose body starts at rest at altitude 122 with
    no vertical drag lands after exactly 499 passes, below ground,
    whatever its [time_step]. *)
Lemma run_fall_122 s fuel :
  well_formed s ->
  getitem (Body.position (Simulator.body s)) 2 = Ok 122 ->
  getitem (Body.velocity (Simulator.body s)) 2 = Ok 0 ->
  getitem (Body.drag (Simulator.body s)) 2 = Ok 0 ->
  (499 <= fuel)%nat ->
  exists fr',
    run fuel s = Some (Ok fr') /\
    Simulator.step_count (self fr') = (Simulator.step_count s + 499)%Z /\
    Simulator.time_step (self fr') = Simulator.time_step s /\
    getitem (Body.position (Simulator.body (self fr'))) 2
      = Ok (fall_altitude 122 499) /\
    fall_altitude 122 499 <= 0.
Proof.
  intros Hwf Hz Hv Hd Hfuel. unfold run.
  destruct (@loop_fall F 122 499 0 fuel (enter s))
    as [fr' [Hl [Hc [Ht Hz']]]]; try assumption.
  - cbn [self enter]. rewrite Hz. f_equal. unfold fall_altitude. simpl. lra.
  - cbn [self enter]. rewrite Hv. f_equal. unfold fall_velocity. simpl. lra.
  - intros j Hj. apply fall_122_airborne. lia.
  - apply fall_122_landed.
  - exists fr'. repeat split; try assumption. apply fall_122_landed.
Qed.

Lemma drop_well_formed dt : well_formed (drop dt).
Proof. constructor; cbn; try reflexivity; lra. Qed.

Lemma drop_lands dt fuel :
  (499 <= fuel)%nat ->
  exists fr',
    run fuel (drop dt) = Some (Ok fr') /\
    Simulator.step_count (self fr') = 499%Z /\
    Simulator.time_step (self fr') = dt /\
    getitem (Body.position (Simulator.body (self fr'))) 2
      = Ok (fall_altitude 122 499) /\
    fall_altitude 122 499 <= 0.
Proof.
  intros Hfuel.
  exact (@run_fall_122 (drop dt) fuel (drop_well_formed dt)
           eq_refl eq_refl eq_refl Hfuel).
Qed.

Lemma sqrt_fall_time : 4.98 < R_sqrt.sqrt (2 * 122 / 9.81) < 4.99.
Proof.
  split.
  - rewrite <- (sqrt_pow2 4.98) by lra. apply sqrt_lt_1_alt. lra.
  - rewrite <- (sqrt_pow2 4.99) by lra. apply sqrt_lt_1_alt. split.
    + unfold Rdiv. apply Rmult_le_pos; [lra |].
      apply Rlt_le, Rinv_0_lt_compat. lra.
    + lra.
Qed.

(** At the default [time_step] the specification counts 499 passes, at the
    double of it 250. *)
Lemma spec_tick_count_default : spec_tick_count 0.01 = 499%Z.
Proof.
  unfold spec_tick_count. apply Zceil_eq.
  pose proof sqrt_fall_time. lra.
Qed.

Lemma spec_tick_count_double : spec_tick_count 0.02 = 250%Z.
Proof.
  unfold spec_tick_count. apply Zceil_eq.
  pose proof sqrt_fall_time. lra.
Qed.

(** With the default [time_step] the count of the specification is met. *)
Lemma drop_default_count :
  exists fr',
    run 499 (drop 0.01) = Some (Ok fr') /\
    Simulator.step_count (self fr') = spec_tick_count 0.01.
Proof.
  destruct (@drop_lands 0.01 499 (le_n 499)) as [fr' [Hr [Hc _]]].
  exists fr'. split; [exact Hr |].
  rewrite Hc, spec_tick_count_default. reflexivity.
Qed.

End FallCount.

(** ** The integral accumulators *)

Section Integrals.
Context {T : Type} `{Num T} `{Power T} `{MathLib T} `{Format T}.
Local Open Scope num_scope.
Implicit Type b : Body.t T.
Implicit Type fr : frame (T := T).

(** The corrections leave the errors of the body as the error updates
    computed them. *)
Lemma corrections_keep_errors b ia ix iy b' :
  correct_xy (correct_angle (update_errors b) ia) ix iy = Ok b' ->
  Body.pos_error b' = zip_with sub (Body.position b) (Body.target b) /\
  Body.ang_error b' = Body.ang_error (update_angle_error b).
Proof.
  unfold correct_xy. intros Hc. do 4 bind_inv Hc. injection Hc as <-.
  destruct b. unfold update_errors, update_ang_vel_error,
    update_angle_error, update_vel_error, update_pos_error, correct_angle.
  cbn. split_if; split; reflexivity.
Qed.

(** The accumulators of a pass that returns, from the errors that the pass
    computed on the body it stepped. *)
Lemma tick_integrals fr fr' :
  tick fr = Ok fr' ->
  exists body_accel b1 e0 e1 le,
    net_accel (Simulator.body (self fr)) (self fr) = Ok body_accel /\
    step (Simulator.body (self fr)) body_accel step_default_time_step
      = Ok b1 /\
    zip_with sub (Body.position b1) (Body.target b1) = e0 :: e1 :: le /\
    integral_x fr' = integral_policy (integral_x fr) e0 /\
    integral_y fr' = integral_policy (integral_y fr) e1 /\
    integral_ang fr' =
      integral_policy (integral_ang fr)
        (Body.ang_error (update_angle_error b1)) /\
    pass_pos_error 0 fr' = e0 /\ pass_pos_error 1 fr' = e1 /\
    pass_ang_error fr' = Body.ang_error (update_angle_error b1).
Proof.
  intros Ht.
  destruct (@tick_inv _ _ _ _ _ fr fr' Ht)
    as [acc [b1 [Hn [Hs [Hc [_ [_ [_ [_ [_ [[e0 [e1 Hxy]] Ha]]]]]]]]]]].
  cbv zeta in Ha. destruct Hxy as [H0' [H1' [Hx Hy]]].
  destruct (@corrections_keep_errors _ _ _ _ _ Hc) as [Hpe Hae].
  unfold pass_pos_error, pass_ang_error.
  rewrite Hae in Ha. rewrite Hae. rewrite Hpe in H0', H1'. rewrite Hpe.
  destruct (zip_with sub (Body.position b1) (Body.target b1))
    as [| e0' [| e1' le]] eqn:Hz; try discriminate.
  cbn in H0', H1'. injection H0' as ->. injection H1' as ->.
  exists acc, b1, e0, e1, le. repeat split; try assumption; reflexivity.
Qed.

(** Over successive passes the accumulators follow the trace of the
    policy on the errors of those passes. *)
Lemma passes_integrals frs : forall fr,
  passes fr frs ->
  map (integral_x (T := T)) frs =
    accumulator_trace (integral_x fr) (map (pass_pos_error 0) frs) /\
  map (integral_y (T := T)) frs =
    accumulator_trace (integral_y fr) (map (pass_pos_error 1) frs) /\
  map (integral_ang (T := T)) frs =
    accumulator_trace (integral_ang fr) (map pass_ang_error frs).
Proof.
  induction frs as [| fr' frs IH]; intros fr Hp; [repeat split |].
  destruct Hp as [Ht Hp]. destruct (IH fr' Hp) as [Hx [Hy Ha]].
  destruct (@tick_integrals fr fr' Ht)
    as [acc [b1 [e0 [e1 [le [_ [_ [_ [Ix [Iy [Ia [E0 [E1 Ea]]]]]]]]]]]]].
  cbn [map accumulator_trace]. rewrite E0, E1, Ea, <- Ix, <- Iy, <- Ia.
  rewrite Hx, Hy, Ha. repeat split.
Qed.

End Integrals.

(** C5. In every pass of [Simulator.run] that returns, each of the three
    accumulators is updated from the error that the pass itself computed on
    the body it stepped (the x and y components of position minus target,
    and the heading error) by the policy of the specification: an error
    strictly below 1, negative ones included, is added, any other error
    resets the accumulator to 0. So over successive passes the accumulators
    go through the trace of the policy on the errors of those passes, and on
    the errors 0.5, 2.0, 0.3 an accumulator that starts at 0 goes through 0.5,
    0, 0.3 in binary64. *)
Theorem integrals_follow_policy :
  (forall (T : Type) `{Num T} `{Power T} `{MathLib T} `{Format T}
          (fr fr' : frame (T := T)),
      tick fr = Ok fr' ->
      exists body_accel b1 e0 e1 le,
        net_accel (Simulator.body (self fr)) (self fr) = Ok body_accel /\
        step (Simulator.body (self fr)) body_accel step_default_time_step
          = Ok b1 /\
        zip_with sub (Body.position b1) (Body.target b1) = e0 :: e1 :: le /\
        integral_x fr' = integral_policy (integral_x fr) e0 /\
        integral_y fr' = integral_policy (integral_y fr) e1 /\
        integral_ang fr' =
          integral_policy (integral_ang fr)
            (Body.ang_error (update_angle_error b1))) /\
  (forall (T : Type) `{Num T} (acc e : T),
      integral_policy acc e = if ltb e (num 1) then add acc e else num 0) /\
  (forall (T : Type) `{Num T} `{Power T} `{MathLib T} `{Format T}
          (fr : frame (T := T)) (frs : list (frame (T := T))),
      passes fr frs ->
      map (integral_x (T := T)) frs =
        accumulator_trace (integral_x fr) (map (pass_pos_error 0) frs) /\
      map (integral_y (T := T)) frs =
        accumulator_trace (integral_y fr) (map (pass_pos_error 1) frs) /\
      map (integral_ang (T := T)) frs =
        accumulator_trace (integral_ang fr) (map pass_ang_error frs)) /\
  accumulator_trace (T := float) (num 0) [num 0.5; num 2; num 0.3]
    = [num 0.5; num 0; num 0.3].
Proof.
  split; [| split; [| split]].
  - intros T N P M F fr fr' Ht.
    destruct (@tick_integrals T N P M F fr fr' Ht)
      as [acc [b1 [e0 [e1 [le [Hn [Hs [Hz [Ix [Iy [Ia _]]]]]]]]]]].
    exists acc, b1, e0, e1, le. repeat split; assumption.
  - reflexivity.
  - intros T N P M F fr frs Hp. exact (@passes_integrals T N P M F frs fr Hp).
  - vm_compute. reflexivity.
Qed.

(** ** Determinism of the loop *)

Section Runs.
Context {T : Type} `{Num T} `{Power T} `{MathLib T} `{Format T}.
Local Open Scope num_scope.
Implicit Type fr : frame (T := T).

Lemma runs_deterministic fr r1 r2 : runs fr r1 -> runs fr r2 -> r1 = r2.
Proof.
  intros Hr1. revert r2.
  induction Hr1 as [fr z Hz Hc | fr e Hz | fr z e Hz Hc Ht
                   | fr z fr' r Hz Hc Ht Hr IH];
    intros r2 Hr2; inversion Hr2; subst; try congruence.
  apply IH. congruence.
Qed.

Lemma loop_runs fuel : forall fr r, loop fuel fr = Some r -> runs fr r.
Proof.
  induction fuel as [| fuel IH]; intros fr r; cbn [loop];
    destruct (getitem (Body.position (Simulator.body (self fr))) 2)
      as [z | e] eqn:Hz;
    try (intros [= <-]; apply runs_no_altitude; assumption);
    destruct (z >? num 0) eqn:Hc;
    try (intros [= <-]; eapply runs_landed; eassumption);
    try discriminate.
  destruct (tick fr) as [fr' | e] eqn:Ht.
  - intros Hl. eapply runs_pass; eauto.
  - intros [= <-]. eapply runs_raise; eauto.
Qed.

Lemma runs_loop fr r : runs fr r -> exists fuel, loop fuel fr = Some r.
Proof.
  induction 1 as [fr z Hz Hc | fr e Hz | fr z e Hz Hc Ht
                 | fr z fr' r Hz Hc Ht Hr [fuel IH]].
  - exists O. cbn [loop]. rewrite Hz, Hc. reflexivity.
  - exists O. cbn [loop]. rewrite Hz. reflexivity.
  - exists 1%nat. cbn [loop]. rewrite Hz, Hc, Ht. reflexivity.
  - exists (S fuel). cbn [loop]. rewrite Hz, Hc, Ht. exact IH.
Qed.

(** More fuel than enough changes nothing. *)
Lemma loop_fuel_mono f : forall f' fr r,
  loop f fr = Some r -> (f <= f')%nat -> loop f' fr = Some r.
Proof.
  induction f as [| f IH]; intros f' fr r Hl Hle.
  - destruct f'; cbn [loop] in *;
      destruct (getitem (Body.position (Simulator.body (self fr))) 2);
      try assumption;
      destruct (_ >? _); try assumption; discriminate.
  - destruct f' as [| f']; [lia |]. cbn [loop] in *.
    destruct (getitem (Body.position (Simulator.body (self fr))) 2);
      try assumption.
    destruct (_ >? _); try assumption.
    destruct (tick fr); try assumption.
    apply IH; [assumption | lia].
Qed.

(** The outcome of a run does not depend on the fuel that was enough. *)
Lemma run_fuel_irrelevant s f1 f2 r1 r2 :
  run f1 s = Some r1 -> run f2 s = Some r2 -> r1 = r2.
Proof.
  unfold run. intros Hr1 Hr2.
  eapply runs_deterministic; eapply loop_runs; eassumption.
Qed.

End Runs.

(** ** The report helpers *)

Section ReportFacts.
Context {T : Type} `{Num T} `{Format T}.
Local Open Scope string_scope.
Implicit Type b : Body.t T.

(** The five helpers that [run] prints with return on a body with three
    position and velocity components and two error components. *)
Lemma reports_ok b x y z vx vy vz e0 e1 le :
  Body.position b = [x; y; z] ->
  Body.velocity b = [vx; vy; vz] ->
  Body.pos_error b = e0 :: e1 :: le ->
  pos_report b
    = Ok ("pos(" ++ fmt 2 x ++ ", " ++ fmt 2 y ++ ", " ++ fmt 2 z ++ ")") /\
  vel_report b
    = Ok ("vel(" ++ fmt 2 vx ++ ", " ++ fmt 2 vy ++ ", " ++ fmt 2 vz ++ ")")
  /\
  ang_report b = Ok ("angle(" ++ fmt 2 (Body.angle b) ++ ")") /\
  pos_error_report b
    = Ok ("pos_error(" ++ fmt 2 e0 ++ ", " ++ fmt 2 e1 ++ ")") /\
  ang_error_report b
    = Ok ("ang_error(" ++ fmt 2 (Body.ang_error b) ++ ")").
Proof.
  intros Hp Hv He.
  unfold pos_report, vel_report, ang_report, pos_error_report,
    ang_error_report, field_at, field, Body_getattr.
  cbn -[String.append fmt]. rewrite Hp, Hv, He. cbn -[String.append fmt].
  repeat split; reflexivity.
Qed.

(** C9, the two helpers that always fail. [ang_vel_report] reads
    [self.ang_vel], an attribute no [Body] has (the angular velocity is
    [angle_vel]), and raises [AttributeError]; [vel_error_report] formats
    the list [self.vel_error] itself with [0.2f] and raises [TypeError].
    This holds for every body, whatever its fields. *)
Theorem reports_that_raise b :
  ang_vel_report b = Raise (AttributeError "Body" "ang_vel") /\
  vel_error_report b = Raise TypeError.
Proof. split; reflexivity. Qed.

End ReportFacts.

Section FormatFacts.
Local Open Scope R_scope.

Lemma round_half_even_IZR (z : Z) : round_half_even (IZR z) = z.
Proof.
  unfold round_half_even.
  assert (Hz : Int_part (IZR z) = z).
  { symmetry. apply Int_part_spec. lra. }
  rewrite Hz. replace (IZR z - IZR z) with 0 by lra.
  destruct (Rlt_dec 0 (1 / 2)); [reflexivity | lra].
Qed.

Lemma fixed_12_34 : fmt 2 12.34 = "12.34"%string.
Proof.
  cbn [fmt Format_R]. unfold fixed.
  replace (Rabs 12.34 * IZR (10 ^ Z.of_nat 2)) with (IZR 1234).
  2:{ rewrite Rabs_right by lra. cbn. lra. }
  rewrite round_half_even_IZR.
  destruct (Rlt_dec 12.34 0); [lra |]. reflexivity.
Qed.

Lemma fixed_neg_5_67 : fmt 2 (-5.67) = "-5.67"%string.
Proof.
  cbn [fmt Format_R]. unfold fixed.
  replace (Rabs (-5.67) * IZR (10 ^ Z.of_nat 2)) with (IZR 567).
  2:{ rewrite Rabs_left by lra. cbn. lra. }
  rewrite round_half_even_IZR.
  destruct (Rlt_dec (-5.67) 0); [| lra]. reflexivity.
Qed.

Lemma fixed_88_9 : fmt 2 88.9 = "88.90"%string.
Proof.
  cbn [fmt Format_R]. unfold fixed.
  replace (Rabs 88.9 * IZR (10 ^ Z.of_nat 2)) with (IZR 8890).
  2:{ rewrite Rabs_right by lra. cbn. lra. }
  rewrite round_half_even_IZR.
  destruct (Rlt_dec 88.9 0); [lra |]. reflexivity.
Qed.

(** The example of the specification. *)
Lemma pos_report_two_decimals :
  pos_report (Body_init 1 0.05 [12.34; -5.67; 88.9] [0; 0; 0] 0 0
                [0; 0; 0] [0; 0] [0; 0] 0)
  = Ok "pos(12.34, -5.67, 88.90)"%string.
Proof.
  destruct (reports_ok
              (Body_init 1 0.05 [12.34; -5.67; 88.9] [0; 0; 0] 0 0
                 [0; 0; 0] [0; 0] [0; 0] 0)
              eq_refl eq_refl eq_refl) as [Hp _].
  rewrite Hp, fixed_12_34, fixed_neg_5_67, fixed_88_9. reflexivity.
Qed.

End FormatFacts.

(** ** Closed statements at concrete inputs *)

Section Concrete.
Local Open Scope R_scope.

(** C7, at the failing input [time_step = 0.02]. The run of the scenario
    returns after 499 passes with the body below ground, as with any other
    [time_step], while the specification counts 250 passes there: 499 is
    not within one of it. *)
Theorem drop_count_ignores_time_step :
  exists fr' z,
    run 499 (drop 0.02) = Some (Ok fr') /\
    Simulator.step_count (self fr') = 499%Z /\
    getitem (Body.position (Simulator.body (self fr'))) 2 = Ok z /\
    z <= 0 /\
    spec_tick_count 0.02 = 250%Z /\
    ~ (Z.abs (Simulator.step_count (self fr') - spec_tick_count 0.02)
       <= 1)%Z.
Proof.
  destruct (@drop_lands _ 0.02 499 (le_n 499))
    as [fr' [Hr [Hc [_ [Hz Hle]]]]].
  exists fr', (fall_altitude 122 499).
  rewrite Hc, spec_tick_count_double. cbn.
  repeat split; try assumption. lia.
Qed.

(** C1, at the failing input [time_step = 0.02]. The first pass of the
    scenario records the time [0.02] while the body is integrated over
    [0.01], the default of [Body.step]: its vertical velocity is
    [-9.81 * 0.01] and not [-9.81 * 0.02]. *)
Theorem tick_steps_by_default_not_time_step :
  exists fr' vz z,
    tick (enter (drop 0.02)) = Ok fr' /\
    Simulator.time_step (self fr') = 0.02 /\
    Simulator.time (self fr') = [0.02 * 1] /\
    getitem (Body.velocity (Simulator.body (self fr'))) 2 = Ok vz /\
    getitem (Body.position (Simulator.body (self fr'))) 2 = Ok z /\
    vz = -9.81 * 0.01 /\
    z = 122 + -9.81 * 0.01 * 0.01 /\
    vz <> -9.81 * Simulator.time_step (self fr').
Proof.
  destruct (tick_vertical (enter (drop 0.02)) (drop_well_formed _))
    as [fr' [Ht [_ Hvert]]].
  cbv zeta in Hvert.
  destruct (Hvert 122 0 0 eq_refl eq_refl eq_refl) as [Hv [Hz _]].
  destruct (@tick_inv _ _ _ _ _ (enter (drop 0.02)) fr' Ht)
    as [acc [b1 [_ [_ [_ [_ [Hts [_ [_ [Htime _]]]]]]]]]].
  cbv zeta in Hts, Htime. cbn in Hts, Htime.
  do 3 eexists. split; [exact Ht |].
  split; [exact Hts |]. split; [exact Htime |].
  split; [exact Hv |]. split; [exact Hz |].
  rewrite Hts. unfold z_accel_of. cbn.
  repeat split; try lra.
Qed.

(** [%] on binary64 as CPython computes it: the sign of the divisor, and
    a tiny negative dividend brought up to the divisor itself. *)
Lemma py_mod_values :
  py_mod 725.5 360 = 5.5%float /\
  py_mod (-725.5) 360 = 354.5%float /\
  py_mod 7.5 (-2) = (-0.5)%float /\
  py_mod (-7.5) 2 = 0.5%float /\
  py_mod 1e22 360 = 280%float /\
  py_mod (num (-1e-20)) 360 = 360%float.
Proof. vm_compute. repeat split. Qed.

(** C4, at the failing input [Body(angle=0, angle_vel=-1e-18)] stepped with
    zero accelerations and the default time step, in binary64. The heading
    becomes [0 + (-1e-18 * 0.01)], a tiny negative number; [% 360] adds 360
    to it, which rounds to 360 exactly; the test [self.angle < 0] does not
    fire. The heading after the step is 360, not below it. *)
Theorem heading_reaches_360 :
  exists b',
    step drifting [0; 0; 0; 0]%float step_default_time_step = Ok b' /\
    Body.angle b' = 360%float /\
    (Body.angle b' <? 360)%float = false.
Proof. vm_compute. eexists. repeat split. Qed.

End Concrete.

(** ** The accumulators on the skydiver *)

Section AccumulatorWitness.
Local Open Scope R_scope.

(** A remainder that is the dividend itself. *)
Lemma Rpymod_small (x y : R) : 0 <= x < y -> Rpymod x y = x.
Proof.
  intros [H0 Hy]. unfold Rpymod.
  assert (Hq : 0 <= x / y < 1).
  { split.
    - apply Rmult_le_pos; [exact H0 |].
      apply Rlt_le, Rinv_0_lt_compat. lra.
    - apply Rmult_lt_reg_r with y; [lra |].
      unfold Rdiv. rewrite Rmult_assoc, Rinv_l by lra. lra. }
  rewrite <- (Int_part_spec (x / y) 0) by (simpl; lra).
  simpl. lra.
Qed.

Lemma integrals_follow_policy_witness :
  exists fr',
    tick mid_run = Ok fr' /\
    integral_x mid_run = 3 /\ integral_x fr' = 0 /\
    integral_y mid_run = 4 /\ integral_y fr' = 0 /\
    integral_ang mid_run = 5 /\ integral_ang fr' = 5 + -179.
Proof.
  assert (Hwf : well_formed (self mid_run))
    by (constructor; cbn; try reflexivity; lra).
  destruct (@tick_vertical ExactFormat.Format_R mid_run Hwf)
    as [fr' [Ht _]].
  exists fr'. split; [exact Ht |].
  destruct (proj1 integrals_follow_policy R _ _ _ _ mid_run fr' Ht)
    as [acc [b1 [e0 [e1 [le [Hn [Hs [Hz [Ix [Iy Ia]]]]]]]]]].
  erewrite net_accel_exact in Hn; try reflexivity; try (cbn; lra).
  injection Hn as <-.
  erewrite step_exact in Hs; try reflexivity.
  injection Hs as <-.
  unfold stepped in Hz, Ia. cbn in Hz. injection Hz as <- <- _.
  rewrite Ix, Iy, Ia. unfold integral_policy, update_angle_error.
  cbn. literals.
  rewrite !(Rltb_false (y := 1 * / 1)) by lra.
  rewrite Rpymod_small by lra.
  repeat split; try reflexivity; try lra.
  rewrite (Rltb_true (x := 180 * / 1)) by lra. cbn [Body.ang_error].
  rewrite Rltb_true by lra. lra.
Defined.

End AccumulatorWitness.

(** * Further properties of the program *)

(** ** The error updates of [Body] *)

Section BodyErrors.
Context {T : Type} `{Num T}.
Local Open Scope num_scope.
Implicit Type b : Body.t T.

Lemma zip_with_length (f : T -> T -> T) l1 : forall l2,
  List.length (zip_with f l1 l2) = Nat.min (List.length l1) (List.length l2).
Proof.
  induction l1 as [| a l1 IH]; intros [| c l2]; cbn; try reflexivity.
  now rewrite IH.
Qed.

Lemma zip_with_nth (f : T -> T -> T) l1 : forall l2 k p t,
  nth_error l1 k = Some p -> nth_error l2 k = Some t ->
  nth_error (zip_with f l1 l2) k = Some (f p t).
Proof.
  induction l1 as [| a l1 IH]; intros [| c l2] [| k] p t H1 H2;
    cbn in *; try discriminate.
  - congruence.
  - now apply IH.
Qed.

(** X1. [update_pos_error] pairs the position with the target and stops at
    the shorter of the two: the error has as many components as the
    shorter one, each the position minus the target on its axis; with a
    target on the ground plane the altitude is left out. *)
Theorem update_pos_error_pairs b :
  List.length (Body.pos_error (update_pos_error b)) =
    Nat.min (List.length (Body.position b)) (List.length (Body.target b)) /\
  (forall k p t,
      nth_error (Body.position b) k = Some p ->
      nth_error (Body.target b) k = Some t ->
      getitem (Body.pos_error (update_pos_error b)) k = Ok (p - t)) /\
  (forall x y z tx ty,
      Body.position b = [x; y; z] -> Body.target b = [tx; ty] ->
      update_pos_error b = Body.set_pos_error b [x - tx; y - ty]).
Proof.
  destruct b; cbn. repeat split.
  - apply zip_with_length.
  - intros k q t Hp Ht. unfold getitem.
    now rewrite (zip_with_nth sub _ _ _ Hp Ht).
  - intros x y z tx ty -> ->. reflexivity.
Qed.

(** X2. The four error updates do not depend on one another: running them
    a second time changes nothing, and the order of any two of them does
    not matter. *)
Theorem update_errors_independent b :
  update_errors (update_errors b) = update_errors b /\
  update_vel_error (update_pos_error b) =
    update_pos_error (update_vel_error b) /\
  update_angle_error (update_pos_error b) =
    update_pos_error (update_angle_error b) /\
  update_ang_vel_error (update_pos_error b) =
    update_pos_error (update_ang_vel_error b) /\
  update_angle_error (update_vel_error b) =
    update_vel_error (update_angle_error b) /\
  update_ang_vel_error (update_vel_error b) =
    update_vel_error (update_ang_vel_error b) /\
  update_ang_vel_error (update_angle_error b) =
    update_angle_error (update_ang_vel_error b).
Proof.
  destruct b. unfold update_errors, update_ang_vel_error,
    update_angle_error, update_vel_error, update_pos_error.
  cbn. repeat split; destruct (ltb (num 180) angle) eqn:E; cbn; rewrite ?E;
    reflexivity.
Qed.

End BodyErrors.

(** ** The heading and its error *)

Section HeadingExact.
Local Open Scope R_scope.
Implicit Type b : Body.t R.

Lemma update_angle_error_exact b :
  Body.ang_error (update_angle_error b) =
    if Rltb 180 (Body.angle b) then Body.angle b - 360 else Body.angle b.
Proof.
  destruct b. unfold update_angle_error. cbn. literals.
  replace (180 * / 1) with 180 by lra. replace (360 * / 1) with 360 by lra.
  destruct (Rltb 180 angle); reflexivity.
Qed.

Lemma update_errors_ang_error b :
  Body.ang_error (update_errors b) = Body.ang_error (update_angle_error b).
Proof.
  destruct b. unfold update_errors, update_ang_vel_error,
    update_angle_error, update_vel_error, update_pos_error. cbn.
  destruct (Rltb (Q2R 180) angle); reflexivity.
Qed.

Lemma ang_error_range b :
  0 <= Body.angle b < 360 ->
  -180 < Body.ang_error (update_angle_error b) <= 180.
Proof.
  intros Hr. rewrite update_angle_error_exact. unfold Rltb.
  destruct (Rlt_dec 180 (Body.angle b)); lra.
Qed.

(** X3. For a heading in [0, 360), [update_angle_error] gives the signed
    heading error in (-180, 180]: the heading itself up to 180, the
    heading minus a full turn above. *)
Theorem update_angle_error_signed b :
  0 <= Body.angle b < 360 ->
  -180 < Body.ang_error (update_angle_error b) <= 180 /\
  (Body.angle b <= 180 ->
   Body.ang_error (update_angle_error b) = Body.angle b) /\
  (180 < Body.angle b ->
   Body.ang_error (update_angle_error b) = Body.angle b - 360).
Proof.
  intros Hr. split; [now apply ang_error_range |].
  rewrite update_angle_error_exact. unfold Rltb.
  destruct (Rlt_dec 180 (Body.angle b)); split; intros; lra.
Qed.

Lemma update_angle_error_signed_witness :
  -180 <
    Body.ang_error
      (update_angle_error
         (Body_init 1 (1 / 20) [0; 0; 122] [0; 0; 0] 181 0 [0; 0; 0]
            [-7; -15] [0; 0] 0)) <= 180.
Proof.
  refine (proj1 (@update_angle_error_signed
                   (Body_init 1 (1 / 20) [0; 0; 122] [0; 0; 0] 181 0
                      [0; 0; 0] [-7; -15] [0; 0] 0) _)).
  cbn. lra.
Defined.

End HeadingExact.

(** ** Where [Body.step] raises *)

Section StepErrors.
Local Open Scope R_scope.
Implicit Type b : Body.t R.

(** X6. [Body.step] raises [IndexError] exactly when the position or the
    velocity has fewer than three components or the accelerations fewer
    than four; it raises nothing else, and extra components do no harm. *)
Theorem step_raises_index_error b (net_accel : list R) dt :
  (step b net_accel dt = Raise IndexError <->
   (List.length (Body.position b) < 3 \/
    List.length (Body.velocity b) < 3 \/
    List.length net_accel < 4)%nat) /\
  (forall e, step b net_accel dt = Raise e -> e = IndexError).
Proof.
  destruct b.
  destruct position as [| x [| y [| z pr]]];
    destruct velocity as [| vx [| vy [| vz vr]]];
    destruct net_accel as [| ax [| ay [| az [| al ar]]]];
    unfold step; cbn -[mod_ Rltb];
    try rewrite mod_R by (literals; lra); cbn -[Rltb Rpymod];
    (split; [split; [intros Hs; try discriminate Hs; lia
                    | intros Hl; try reflexivity; lia]
            | intros e Hs; try discriminate Hs; congruence]).
Qed.

End StepErrors.

(** ** The controller *)

Section ControllerFacts.
Context {T : Type} `{Num T}.
Local Open Scope num_scope.
Implicit Type b : Body.t T.

(** X7. The two corrections do not interfere: [correct_angle] assigns
    only [angle_force], [correct_xy] only [xy_force], and the order of the
    two calls in a pass does not matter. *)
Theorem corrections_commute b (ix iy ia : T) :
  correct_xy (correct_angle b ia) ix iy =
    match correct_xy b ix iy with
    | Ok b' => Ok (correct_angle b' ia)
    | Raise e => Raise e
    end /\
  correct_angle b ia =
    Body.set_angle_force b (Body.angle_force (correct_angle b ia)) /\
  (forall b', correct_xy b ix iy = Ok b' ->
              b' = Body.set_xy_force b (Body.xy_force b')).
Proof.
  destruct b. unfold correct_xy, correct_angle. cbn.
  repeat split.
  - destruct (getitem pos_error 0); cbn; [| reflexivity].
    destruct (getitem velocity 0); cbn; [| reflexivity].
    destruct (getitem pos_error 1); cbn; [| reflexivity].
    destruct (getitem velocity 1); cbn; reflexivity.
  - intros b'.
    destruct (getitem pos_error 0); cbn; [| discriminate].
    destruct (getitem velocity 0); cbn; [| discriminate].
    destruct (getitem pos_error 1); cbn; [| discriminate].
    destruct (getitem velocity 1); cbn; [| discriminate].
    intros [= <-]. reflexivity.
Qed.

(** X8. [correct_xy] raises [IndexError] exactly when the position error
    or the velocity has fewer than two components, and nothing else; so a
    target with fewer than two coordinates makes the correction after
    [update_pos_error] raise. *)
Theorem correct_xy_raises_index_error b (ix iy : T) :
  (correct_xy b ix iy = Raise IndexError <->
   (List.length (Body.pos_error b) < 2 \/
    List.length (Body.velocity b) < 2)%nat) /\
  (forall e, correct_xy b ix iy = Raise e -> e = IndexError) /\
  ((List.length (Body.target b) < 2)%nat ->
   correct_xy (update_pos_error b) ix iy = Raise IndexError).
Proof.
  assert (Hgen : forall b : Body.t T,
    (correct_xy b ix iy = Raise IndexError <->
     (List.length (Body.pos_error b) < 2 \/
      List.length (Body.velocity b) < 2)%nat) /\
    (forall e, correct_xy b ix iy = Raise e -> e = IndexError)).
  { clear b. intros b. destruct b.
    destruct pos_error as [| e0 [| e1 er]];
      destruct velocity as [| v0 [| v1 vr]];
      unfold correct_xy; cbn;
      (split; [split; [intros Hs; try discriminate Hs; lia
                      | intros Hl; try reflexivity; lia]
              | intros e Hs; try discriminate Hs; congruence]). }
  split; [apply Hgen | split; [apply Hgen |]].
  intros Hl. apply Hgen. left.
  unfold update_pos_error. destruct b. cbn in *.
  rewrite zip_with_length. lia.
Qed.

End ControllerFacts.

Section ControllerSymmetry.
Local Open Scope R_scope.
Implicit Type b : Body.t R.

Lemma clamp_odd (f lim : R) : 0 <= lim -> clamp (- f) lim = - clamp f lim.
Proof.
  intros Hl. unfold clamp. cbn. unfold Rltb.
  repeat destruct Rlt_dec; lra.
Qed.

Lemma clamp_zero (lim : R) : 0 <= lim -> clamp 0 lim = 0.
Proof.
  intros Hl. unfold clamp. cbn. unfold Rltb.
  repeat destruct Rlt_dec; lra.
Qed.

(** X9. The control law is odd: on a body whose errors and velocities are
    the negatives of another's, with negated accumulators and the same
    gains and limits, both corrections give the negated forces; the
    saturation is symmetric. *)
Theorem corrections_odd b1 b2 ix iy ia e0 e1 v0 v1 vz1 vz2 :
  0 <= Controller.force_lim (Body.controller b1) ->
  0 <= Controller.angle_force_lim (Body.controller b1) ->
  Body.controller b2 = Body.controller b1 ->
  Body.pos_error b1 = [e0; e1] -> Body.pos_error b2 = [- e0; - e1] ->
  Body.velocity b1 = [v0; v1; vz1] ->
  Body.velocity b2 = [- v0; - v1; vz2] ->
  Body.ang_error b2 = - Body.ang_error b1 ->
  Body.ang_vel_error b2 = - Body.ang_vel_error b1 ->
  (exists fx fy,
      correct_xy b1 ix iy = Ok (Body.set_xy_force b1 [fx; fy]) /\
      correct_xy b2 (- ix) (- iy) =
        Ok (Body.set_xy_force b2 [- fx; - fy])) /\
  Body.angle_force (correct_angle b2 (- ia)) =
    - Body.angle_force (correct_angle b1 ia).
Proof.
  intros Hl Hal Hc He1 He2 Hv1 Hv2 Hae Hav. split.
  - do 2 eexists. split.
    + eapply correct_xy_exact; eassumption.
    + rewrite (@correct_xy_exact _ _ b2 (- ix) (- iy) _ _ _ _ _ _ He2 Hv2).
      cbn zeta. rewrite Hc, <- !clamp_odd by exact Hl.
      do 3 f_equal; [| f_equal]; f_equal; cbn; ring.
  - rewrite (correct_angle_exact b1 ia), (correct_angle_exact b2 (- ia)).
    destruct b1, b2. cbn in *. subst.
    rewrite <- clamp_odd by exact Hal. f_equal. ring.
Qed.

Lemma corrections_odd_witness :
  Body.angle_force
    (correct_angle
       (Body.set_ang_error
          (Body.set_pos_error
             (Body_init 1 (1 / 20) [0; 0; 122] [-1; -2; 0] 0 0 [0; 0; 0]
                [0; 0] [0; 0] 0) [-3; -4]) (-20)) (- 5)) =
  - Body.angle_force
      (correct_angle
         (Body.set_ang_error
            (Body.set_pos_error
               (Body_init 1 (1 / 20) [0; 0; 122] [1; 2; 0] 0 0 [0; 0; 0]
                  [0; 0] [0; 0] 0) [3; 4]) 20) 5).
Proof.
  refine (proj2 (@corrections_odd
                   (Body.set_ang_error
                      (Body.set_pos_error
                         (Body_init 1 (1 / 20) [0; 0; 122] [1; 2; 0] 0 0
                            [0; 0; 0] [0; 0] [0; 0] 0) [3; 4]) 20)
                   (Body.set_ang_error
                      (Body.set_pos_error
                         (Body_init 1 (1 / 20) [0; 0; 122] [-1; -2; 0] 0 0
                            [0; 0; 0] [0; 0] [0; 0] 0) [-3; -4]) (-20))
                   1 2 5 3 4 1 2 0 0 _ _ eq_refl eq_refl _ eq_refl _ _ _));
    cbn; literals; try lra; repeat f_equal; lra.
Defined.

End ControllerSymmetry.

(** ** What a run records *)

Section RunRecords.
Context {T : Type} `{Num T} `{Power T} `{MathLib T} `{Format T}.
Local Open Scope num_scope.
Implicit Type b : Body.t T.
Implicit Type s : Simulator.t T.
Implicit Type fr : frame (T := T).

(** What a pass that returns has recorded and printed. *)
Lemma tick_record fr fr' :
  tick fr = Ok fr' ->
  let s := self fr in
  let s' := self fr' in
  let b' := Simulator.body s' in
  exists acc x y z vx vy vz ax ay az alpha,
    net_accel (Simulator.body s) s = Ok acc /\
    (getitem (Body.position b') 0 = Ok x /\
     getitem (Body.position b') 1 = Ok y /\
     getitem (Body.position b') 2 = Ok z) /\
    (getitem (Body.velocity b') 0 = Ok vx /\
     getitem (Body.velocity b') 1 = Ok vy /\
     getitem (Body.velocity b') 2 = Ok vz) /\
    (getitem acc 0 = Ok ax /\ getitem acc 1 = Ok ay /\
     getitem acc 2 = Ok az /\ getitem acc 3 = Ok alpha) /\
    series s' =
      [Simulator.time s
         ++ [Simulator.time_step s * of_Z (Simulator.step_count s + 1)];
       Simulator.x_pos s ++ [x]; Simulator.y_pos s ++ [y];
       Simulator.z_pos s ++ [z];
       Simulator.x_vel s ++ [vx]; Simulator.y_vel s ++ [vy];
       Simulator.z_vel s ++ [vz];
       Simulator.x_accel s ++ [ax]; Simulator.y_accel s ++ [ay];
       Simulator.z_accel s ++ [az];
       Simulator.angle s ++ [Body.angle b'];
       Simulator.angle_vel s ++ [Body.angle_vel b'];
       Simulator.angle_accel s ++ [alpha]] /\
    (if Simulator.debug s
     then exists l, debug_line s' = Ok l /\ stdout fr' = stdout fr ++ [l]
     else stdout fr' = stdout fr).
Proof.
  intros Ht. cbv zeta. destruct fr as [s ix iy ia out]. destruct s.
  unfold tick in Ht. cbn [self integral_x integral_y integral_ang stdout
    Simulator.body] in Ht.
  bind_inv Ht. bind_inv Ht.
  cbn [Simulator.set_body Simulator.set_step_count Simulator.body
       Simulator.step_count Simulator.time_step Simulator.wind
       Simulator.debug Simulator.time Simulator.x_pos Simulator.y_pos
       Simulator.z_pos Simulator.x_vel Simulator.y_vel Simulator.z_vel
       Simulator.x_accel Simulator.y_accel Simulator.z_accel
       Simulator.angle Simulator.angle_vel Simulator.angle_accel] in Ht.
  rewrite Z.mod_1_r in Ht. cbn [Z.eqb] in Ht.
  do 16 bind_inv Ht.
  injection Ht as <-.
  cbn [self stdout Simulator.body Simulator.debug Simulator.step_count
       Simulator.time_step].
  exists a, a6, a7, a8, a9, a10, a11, a12, a13, a14, a15.
  repeat split; try assumption.
  destruct debug.
  - bind_inv E16. injection E16 as <-. eexists. split; reflexivity.
  - now injection E16 as <-.
Qed.

(** A property that every pass from an airborne frame keeps holds at the
    exit of the loop, where the altitude is no longer positive. *)
Lemma loop_invariant (P : frame (T := T) -> Prop) :
  (forall fr fr' z,
      P fr ->
      getitem (Body.position (Simulator.body (self fr))) 2 = Ok z ->
      (z >? num 0) = true ->
      tick fr = Ok fr' ->
      P fr') ->
  forall fuel fr fr',
    P fr -> loop fuel fr = Some (Ok fr') ->
    P fr' /\
    exists z,
      getitem (Body.position (Simulator.body (self fr'))) 2 = Ok z /\
      (z >? num 0) = false.
Proof.
  intros Hstep. induction fuel as [| fuel IH]; intros fr fr' HP; cbn [loop];
    destruct (getitem (Body.position (Simulator.body (self fr))) 2)
      as [z | e] eqn:Hz; try discriminate;
    destruct (z >? num 0) eqn:Hc; try discriminate;
    try (intros [= <-]; split; [exact HP | exists z; now split]).
  destruct (tick fr) as [fr1 | e] eqn:Ht; [| discriminate].
  apply IH. exact (Hstep _ _ _ HP Hz Hc Ht).
Qed.

Lemma length_append (l : list T) (x : T) :
  List.length (l ++ [x]) = S (List.length l).
Proof. rewrite length_app. cbn. lia. Qed.

(** X11. When the run of a fresh simulator returns after [n] passes, each
    of the thirteen recorded series holds exactly [n] samples, and the
    debug output holds [n] lines if [debug] is set and none otherwise. *)
Theorem run_records_every_pass b (wind_accel : list T) (time_step : T)
    (debug : bool) fuel fr' :
  run fuel (Simulator_init b wind_accel time_step debug) = Some (Ok fr') ->
  exists n : nat,
    Simulator.step_count (self fr') = Z.of_nat n /\
    Forall (fun l => List.length l = n) (series (self fr')) /\
    List.length (stdout fr') = if debug then n else 0%nat.
Proof.
  intros Hr. unfold run in Hr.
  apply (@loop_invariant (fun fr =>
           Simulator.debug (self fr) = debug /\
           exists n : nat,
             Simulator.step_count (self fr) = Z.of_nat n /\
             Forall (fun l => List.length l = n) (series (self fr)) /\
             List.length (stdout fr) = if debug then n else 0%nat))
    in Hr.
  - destruct Hr as [[_ Hn] _]. exact Hn.
  - clear. intros fr fr1 z [Hdbg [n [Hc [Hs Ho]]]] _ _ Ht. 
    destruct (tick_record _ Ht)
      as (acc & x & y & z1 & vx & vy & vz & ax & ay & az & al & _ & _ & _
          & _ & Hser & Hout).
    destruct (tick_inv _ Ht) as (_ & _ & _ & _ & _ & Hc1 & _ & _ & Hd1 & _).
    cbv zeta in *. split; [congruence |]. exists (S n). split; [| split].
    + rewrite Hc1, Hc. lia.
    + rewrite Hser. unfold series in Hs.
      repeat match goal with
             | Hf : Forall _ (_ :: _) |- _ => inversion_clear Hf
             end.
      repeat constructor; rewrite length_append; congruence.
    + rewrite Hdbg in Hout. destruct debug.
      * destruct Hout as [l [_ ->]]. rewrite length_app. cbn. lia.
      * now rewrite Hout.
  - cbn. split; [reflexivity |]. exists 0%nat.
    repeat split; try reflexivity.
    + repeat constructor.
    + now destruct debug.
Qed.

(** X12. The recorded time of the [k]-th pass is [time_step * k], for
    every pass of a run from a fresh simulator: the time series is
    [time_step * 1, ..., time_step * n], a product, not a running sum. *)
Theorem run_records_time b (wind_accel : list T) (time_step : T)
    (debug : bool) fuel fr' :
  run fuel (Simulator_init b wind_accel time_step debug) = Some (Ok fr') ->
  Simulator.time (self fr') =
    map (fun k => time_step * of_Z (Z.of_nat k))
      (seq 1 (Z.to_nat (Simulator.step_count (self fr')))).
Proof.
  intros Hr. unfold run in Hr.
  apply (@loop_invariant (fun fr =>
           Simulator.time_step (self fr) = time_step /\
           (0 <= Simulator.step_count (self fr))%Z /\
           Simulator.time (self fr) =
             map (fun k => time_step * of_Z (Z.of_nat k))
               (seq 1 (Z.to_nat (Simulator.step_count (self fr))))))
    in Hr.
  - destruct Hr as [[_ [_ Hn]] _]. exact Hn.
  - clear. intros fr fr1 z [Hts [Hc Htm]] _ _ Ht.
    destruct (tick_inv _ Ht)
      as (_ & _ & _ & _ & _ & Hc1 & Hts1 & _ & _ & Htm1 & _).
    cbv zeta in *. split; [congruence |]. split; [lia |].
    rewrite Htm1, Hc1, Htm, Hts.
    replace (Z.to_nat (Simulator.step_count (self fr) + 1))
      with (Z.to_nat (Simulator.step_count (self fr)) + 1)%nat by lia.
    rewrite seq_app, map_app. cbn [seq map]. do 4 f_equal.
    rewrite Nat2Z.inj_add, Z2Nat.id by exact Hc. lia.
  - cbn. repeat split; try reflexivity; lia.
Qed.

(** X13. In the altitude series of a run from a fresh simulator every
    sample but the last is positive, and the last is the altitude the
    body ends at, which is not positive: the loop records the landing
    sample and nothing after it. *)
Theorem run_records_altitude b (wind_accel : list T) (time_step : T)
    (debug : bool) fuel fr' :
  run fuel (Simulator_init b wind_accel time_step debug) = Some (Ok fr') ->
  forall l z,
    Simulator.z_pos (self fr') = l ++ [z] ->
    Forall (fun z' => (z' >? num 0) = true) l /\
    getitem (Body.position (Simulator.body (self fr'))) 2 = Ok z /\
    (z >? num 0) = false.
Proof.
  intros Hr. unfold run in Hr.
  apply (@loop_invariant (fun fr =>
           forall l z,
             Simulator.z_pos (self fr) = l ++ [z] ->
             Forall (fun z' => (z' >? num 0) = true) l /\
             getitem (Body.position (Simulator.body (self fr))) 2 = Ok z))
    in Hr.
  - destruct Hr as [Hinv [z0 [Hz0 Hc0]]]. intros l z Hl.
    destruct (Hinv _ _ Hl) as [Hf Hz]. repeat split; congruence.
  - clear. intros fr fr1 z Hinv Hz Hc Ht.
    destruct (tick_record _ Ht)
      as (acc & x & y & z1 & vx & vy & vz & ax & ay & az & al & _ & Hp & _
          & _ & Hser & _).
    cbv zeta in *. unfold series in Hser.
    injection Hser as _ _ _ Hzp _ _ _ _ _ _ _ _ _.
    intros l z2 Hl. rewrite Hzp in Hl.
    apply app_inj_tail in Hl. destruct Hl as [<- <-].
    split; [| apply Hp].
    destruct (Simulator.z_pos (self fr)) as [| z0 l0 _] using rev_ind;
      [constructor |].
    destruct (Hinv _ _ eq_refl) as [Hf Hz0].
    apply Forall_app. split; [exact Hf |]. constructor; [| constructor].
    congruence.
  - cbn. intros l z Hl. destruct l; discriminate Hl.
Qed.

Lemma step_axis_constants (net_accel : list T) dt i b b' :
  step_axis net_accel dt i b = Ok b' -> Body_constants b' = Body_constants b.
Proof.
  destruct b. unfold step_axis. cbn. intros Hs.
  do 6 bind_inv Hs. now injection Hs as <-.
Qed.

Lemma for_range_step_axis_constants (net_accel : list T) dt n :
  forall lo b b',
    for_range lo n (step_axis net_accel dt) b = Ok b' ->
    Body_constants b' = Body_constants b.
Proof.
  induction n as [| n IH]; intros lo b b'; cbn.
  - now intros [= <-].
  - intros Hs. bind_inv Hs.
    rewrite (IH _ _ _ Hs). eapply step_axis_constants; eassumption.
Qed.

Lemma step_constants b (net_accel : list T) dt b' :
  step b net_accel dt = Ok b' -> Body_constants b' = Body_constants b.
Proof.
  unfold step. intros Hs. bind_inv Hs.
  apply for_range_step_axis_constants in E. rewrite <- E.
  bind_inv Hs. bind_inv Hs. injection Hs as <-.
  destruct a. cbn. destruct (_ <? _); reflexivity.
Qed.

Lemma update_errors_constants b :
  Body_constants (update_errors b) = Body_constants b.
Proof.
  destruct b. unfold update_errors, update_ang_vel_error,
    update_angle_error, update_vel_error, update_pos_error. cbn.
  destruct (_ <? _); reflexivity.
Qed.

Lemma corrections_constants b ix iy ia b' :
  correct_xy (correct_angle b ia) ix iy = Ok b' ->
  Body_constants b' = Body_constants b.
Proof.
  destruct b. unfold correct_xy, correct_angle. cbn. intros Hs.
  do 4 bind_inv Hs. now injection Hs as <-.
Qed.

(** X14. A run assigns none of the constants: when it returns, the mass,
    the radius, the drag, the target, the target velocities, the
    controller with its gains and limits, the wind, the time step and the
    debug flag are what they were at the start. *)
Theorem run_keeps_constants s fuel fr' :
  run fuel s = Some (Ok fr') -> constants (self fr') = constants s.
Proof.
  intros Hr. unfold run in Hr.
  apply (@loop_invariant (fun fr => constants (self fr) = constants s))
    in Hr.
  - apply Hr.
  - clear. intros fr fr1 z Hinv _ _ Ht.
    destruct (tick_inv _ Ht)
      as (acc & b1 & _ & Hs & Hc & _ & Hts & Hw & Hd & _).
    cbv zeta in *. rewrite <- Hinv. unfold constants.
    rewrite Hts, Hw, Hd. do 3 f_equal.
    rewrite (corrections_constants _ _ _ _ Hc), update_errors_constants.
    eapply step_constants; eassumption.
  - reflexivity.
Qed.

End RunRecords.

(** ** The input boxes *)

Section InputBoxes.
Variable Rect : Type.
Variable Pos : Type.
Variable collidepoint : Rect -> Pos -> bool.
Variable K_BACKSPACE : Z.
Implicit Type d : Data_Cat.t Rect.

Lemma for_each_Forall {A : Type} (P Q : A -> Prop) (f : A -> result A) :
  (forall a a', P a -> f a = Ok a' -> Q a') ->
  forall l l', Forall P l -> for_each f l = Ok l' -> Forall Q l'.
Proof.
  intros Hf. induction l as [| a l IH]; intros l' HP; cbn.
  - intros [= <-]. constructor.
  - inversion_clear HP. intros Hl. bind_inv Hl. bind_inv Hl.
    injection Hl as <-. constructor; eauto.
Qed.

Lemma for_each_total {A : Type} (P : A -> Prop) (f : A -> result A) :
  (forall a, P a -> exists a', f a = Ok a' /\ P a') ->
  forall l, Forall P l -> exists l', for_each f l = Ok l' /\ Forall P l'.
Proof.
  intros Hf. induction l as [| a l IH]; intros HP; cbn.
  - exists []. split; [reflexivity | constructor].
  - inversion_clear HP.
    destruct (Hf a) as [a' [-> Ha']]; [assumption |].
    destruct IH as [l' [-> Hl']]; [assumption |].
    cbn. eexists. split; [reflexivity |]. now constructor.
Qed.

(** The focus discipline that the clicks keep, by the type of the box. *)
Lemma update_active_focus d pos d' :
  let focus d :=
    (active_fields d <= 1)%nat /\
    (type_is d 0 = false -> Data_Cat.z_active d = false) /\
    (type_is d 0 = false -> type_is d 2 = false ->
     Data_Cat.y_active d = false) in
  focus d -> update_active collidepoint d pos = Ok d' -> focus d'.
Proof.
  cbv zeta. destruct d as [xr yr zr xi yi zi xa ya za ty].
  unfold update_active, active_fields, type_is, collide. cbn.
  destruct ty as [k |]; cbn;
    [destruct (Z.eqb_spec k 0) as [-> | N0];
     [| destruct (Z.eqb_spec k 1) as [-> | N1];
        [| destruct (Z.eqb_spec k 2) as [-> | N2]]] |];
    cbn; intros [Hc [Hz Hy]];
    repeat match goal with
           | |- context [match ?r with Some _ => _ | None => _ end] =>
               is_var r; destruct r; cbn
           | |- context [if collidepoint ?r ?p then _ else _] =>
               destruct (collidepoint r p); cbn
           end;
    try discriminate; intros [= <-]; cbn;
    repeat match goal with
           | Hq : false = false -> _ |- _ => specialize (Hq eq_refl)
           end;
    repeat split; intros; try discriminate; try reflexivity;
    try assumption; try lia;
    repeat match goal with
           | Hq : ?v = false |- _ => is_var v; subst v
           end;
    cbn in *; try lia;
    destruct xa; cbn in *; lia.
Qed.

Lemma update_input_flags d key unicode :
  let d' := update_input K_BACKSPACE d key unicode in
  Data_Cat.x_active d' = Data_Cat.x_active d /\
  Data_Cat.y_active d' = Data_Cat.y_active d /\
  Data_Cat.z_active d' = Data_Cat.z_active d /\
  Data_Cat.type d' = Data_Cat.type d /\
  Data_Cat.x_input_rect d' = Data_Cat.x_input_rect d /\
  Data_Cat.y_input_rect d' = Data_Cat.y_input_rect d /\
  Data_Cat.z_input_rect d' = Data_Cat.z_input_rect d.
Proof.
  cbv zeta. destruct d as [xr yr zr xi yi zi xa ya za ty].
  unfold update_input. cbn.
  destruct xa, ya, za, (key =? K_BACKSPACE)%Z; cbn; repeat split.
Qed.

(** X19. In a session of clicks and key presses on boxes that start with
    no active field, as [Data_Cat.__init__] leaves them, no box ever has
    more than one active field, whatever its type and its rectangles. *)
Theorem one_field_active data_list events data_list' :
  Forall idle data_list ->
  dispatch_all collidepoint K_BACKSPACE data_list events = Ok data_list' ->
  Forall (fun d => (active_fields d <= 1)%nat) data_list'.
Proof.
  set (focus := fun d : Data_Cat.t Rect =>
    (active_fields d <= 1)%nat /\
    (type_is d 0 = false -> Data_Cat.z_active d = false) /\
    (type_is d 0 = false -> type_is d 2 = false ->
     Data_Cat.y_active d = false)).
  intros Hidle Hd.
  assert (Hstart : Forall focus data_list).
  { eapply Forall_impl; [| exact Hidle].
    intros d [Hx [Hy Hz]]. unfold focus, active_fields.
    rewrite Hx, Hy, Hz. cbn. repeat split; intros; try reflexivity. lia. }
  clear Hidle.
  assert (Hend : Forall focus data_list').
  { revert data_list Hstart Hd.
    induction events as [| ev events IH]; intros data_list Hstart; cbn.
    - now intros [= <-].
    - intros Hd. bind_inv Hd. apply (IH a); [| exact Hd].
      destruct ev as [pos | key unicode]; cbn in E.
      + eapply (for_each_Forall (P := focus)); [| exact Hstart | exact E].
        intros d d' Hf Hu. apply (@update_active_focus d pos d'); assumption.
      + eapply (for_each_Forall (P := focus)); [| exact Hstart | exact E].
        intros d d' Hf [= <-].
        destruct (update_input_flags d key unicode)
          as (Hx & Hy & Hz & Ht & _).
        unfold focus, active_fields, type_is in *.
        rewrite Hx, Hy, Hz, Ht. exact Hf. }
  eapply Forall_impl; [| exact Hend]. intros d Hf. apply Hf.
Qed.

Lemma but_last_app_one (s : string) (c : Ascii.ascii) :
  but_last (s ++ String c EmptyString) = s.
Proof.
  induction s as [| a s IH]; [reflexivity |].
  cbn [String.append].
  assert (Hne : exists a' s',
             (s ++ String c EmptyString)%string = String a' s').
  { destruct s; cbn; eauto. }
  destruct Hne as [a' [s' Hs]].
  change (but_last (String a (s ++ String c EmptyString)))
    with (match (s ++ String c EmptyString)%string with
          | EmptyString => EmptyString
          | String _ _ =>
              String a (but_last (s ++ String c EmptyString))
          end).
  rewrite IH, Hs. reflexivity.
Qed.

Lemma append_empty (s : string) : (s ++ EmptyString)%string = s.
Proof. induction s as [| a s IH]; cbn; [reflexivity | now rewrite IH]. Qed.

(** X20. Typing into a box: a key that is not backspace and carries one
    character, followed by backspace, leaves the box as it was; a key
    that carries no text (a modifier) changes nothing; and backspace on
    a box whose texts are empty changes nothing. *)
Theorem typing_round_trip d :
  (forall key c unicode,
      key <> K_BACKSPACE ->
      update_input K_BACKSPACE
        (update_input K_BACKSPACE d key (String c EmptyString))
        K_BACKSPACE unicode = d) /\
  (forall key,
      key <> K_BACKSPACE ->
      update_input K_BACKSPACE d key EmptyString = d) /\
  (forall unicode,
      Data_Cat.x_input d = EmptyString ->
      Data_Cat.y_input d = EmptyString ->
      Data_Cat.z_input d = EmptyString ->
      update_input K_BACKSPACE d K_BACKSPACE unicode = d).
Proof.
  destruct d as [xr yr zr xi yi zi xa ya za ty]. repeat split.
  - intros key c unicode Hk. apply Z.eqb_neq in Hk.
    unfold update_input. cbn. rewrite Hk.
    destruct xa, ya, za; cbn; rewrite ?Z.eqb_refl, ?but_last_app_one;
      reflexivity.
  - intros key Hk. apply Z.eqb_neq in Hk.
    unfold update_input. cbn. rewrite Hk.
    destruct xa, ya, za; cbn; rewrite ?append_empty; reflexivity.
  - cbn. intros unicode -> -> ->.
    unfold update_input. cbn. rewrite Z.eqb_refl.
    destruct xa, ya, za; reflexivity.
Qed.

Lemma update_active_complete d pos :
  complete d ->
  exists d', update_active collidepoint d pos = Ok d' /\ complete d'.
Proof.
  destruct d as [xr yr zr xi yi zi xa ya za ty].
  unfold complete, update_active, type_is, collide. cbn.
  destruct ty as [[| p | p] |]; try (destruct p as [p | [p | p |] |]); cbn;
    intros Hc;
    repeat match goal with
           | Hn : _ /\ _ |- _ => destruct Hn
           | Hn : ?r <> None |- context [match ?r with _ => _ end] =>
               destruct r; [clear Hn | contradiction]; cbn
           | |- context [if collidepoint ?r ?p then _ else _] =>
               destruct (collidepoint r p); cbn
           end;
    eexists; (split; [reflexivity |]); cbn;
    repeat split; try discriminate; exact I.
Qed.

(** X21. Boxes that have the rectangles their type reads, as [animate]
    builds them, take every session of clicks and key presses without
    raising; [update_active] raises nothing but [AttributeError], and
    only on a box that lacks such a rectangle. *)
Theorem events_never_raise data_list events :
  (Forall complete data_list ->
   exists data_list',
     dispatch_all collidepoint K_BACKSPACE data_list events
       = Ok data_list' /\
     Forall complete data_list') /\
  (forall d pos e,
      update_active collidepoint d pos = Raise e ->
      e = AttributeError "NoneType" "collidepoint" /\ ~ complete d).
Proof.
  split.
  - revert data_list. induction events as [| ev events IH];
      intros data_list Hc; cbn.
    + exists data_list. now split.
    + assert (Hstep : exists l,
                dispatch collidepoint K_BACKSPACE data_list ev = Ok l /\
                Forall complete l).
      { destruct ev as [pos | key unicode]; cbn.
        - apply for_each_total; [| exact Hc].
          intros d Hd. now apply update_active_complete.
        - apply for_each_total; [| exact Hc].
          intros d Hd. eexists. split; [reflexivity |].
          destruct (update_input_flags d key unicode)
            as (_ & _ & _ & Ht & Hx & Hy & Hz).
          unfold complete in *. rewrite Ht, Hx, Hy, Hz. exact Hd. }
      destruct Hstep as [l [-> Hl]]. cbn. now apply IH.
  - intros d pos e Hr. split.
    + revert Hr. destruct d as [xr yr zr xi yi zi xa ya za ty].
      unfold update_active, type_is, collide. cbn.
      destruct ty as [k |]; cbn;
        [destruct (k =? 0)%Z; [| destruct (k =? 1)%Z;
                                 [| destruct (k =? 2)%Z]] |];
        repeat match goal with
               | |- context [match ?r with Some _ => _ | None => _ end] =>
                   is_var r; destruct r; cbn
               | |- context [if collidepoint ?r ?p then _ else _] =>
                   destruct (collidepoint r p); cbn
               end;
        try discriminate; now intros [= <-].
    + intros Hc. destruct (@update_active_complete d pos Hc) as [d' [Hd' _]].
      congruence.
Qed.

End InputBoxes.

(** ** The properties at work *)

Section FurtherWitnesses.
Local Open Scope R_scope.

Lemma skydiver_lands :
  exists fr',
    run 499 skydiver = Some (Ok fr') /\
    Simulator.step_count (self fr') = 499%Z.
Proof.
  assert (Hwf : well_formed skydiver).
  { constructor; cbn; try reflexivity; lra. }
  destruct (@run_fall_122 _ skydiver 499 Hwf eq_refl eq_refl eq_refl
              (le_n 499)) as [fr' [Hr [Hc _]]].
  exists fr'. split; [exact Hr | exact Hc].
Qed.

Lemma run_records_every_pass_witness :
  exists fr',
    run 499 skydiver = Some (Ok fr') /\
    Forall (fun l => List.length l = 499%nat) (series (self fr')) /\
    List.length (stdout fr') = 499%nat.
Proof.
  destruct skydiver_lands as [fr' [Hr Hc]].
  exists fr'. split; [exact Hr |].
  destruct (@run_records_every_pass R _ _ _ _ _ _ _ _ 499 fr' Hr)
    as [n [Hn [Hs Ho]]].
  assert (Hn' : n = 499%nat) by lia. rewrite Hn' in Hs, Ho.
  split; assumption.
Defined.

Lemma run_records_time_witness :
  exists fr',
    run 499 skydiver = Some (Ok fr') /\
    Simulator.time (self fr') =
      map (fun k => 0.01 * IZR (Z.of_nat k)) (seq 1 499).
Proof.
  destruct skydiver_lands as [fr' [Hr Hc]].
  exists fr'. split; [exact Hr |].
  rewrite (@run_records_time R _ _ _ _ _ _ _ _ 499 fr' Hr), Hc.
  reflexivity.
Defined.

Lemma run_records_altitude_witness :
  exists fr',
    run 499 skydiver = Some (Ok fr') /\
    forall l z,
      Simulator.z_pos (self fr') = l ++ [z] ->
      Forall (fun z' => Rltb 0 z' = true) l /\ Rltb 0 z = false.
Proof.
  destruct skydiver_lands as [fr' [Hr Hc]].
  exists fr'. split; [exact Hr |].
  intros l z Hl.
  destruct (@run_records_altitude R _ _ _ _ _ _ _ _ 499 fr' Hr l z Hl)
    as [Hf [_ Hz]].
  cbn in Hf, Hz. replace (Q2R 0) with 0 in Hf, Hz by (literals; lra).
  split; assumption.
Defined.

Lemma run_keeps_constants_witness :
  exists fr',
    run 499 skydiver = Some (Ok fr') /\
    constants (self fr') = constants skydiver.
Proof.
  destruct skydiver_lands as [fr' [Hr Hc]].
  exists fr'. split; [exact Hr |].
  exact (@run_keeps_constants R _ _ _ _ skydiver 499 fr' Hr).
Defined.

Lemma one_field_active_witness :
  Forall (fun d => (active_fields d <= 1)%nat)
    [Data_Cat.mk (Some (0, 10)%Z) (Some (20, 30)%Z) (Some (40, 50)%Z)
       "1" "2" EmptyString false true false (Some 0%Z)].
Proof.
  apply (@one_field_active (Z * Z) Z
           (fun r p => (fst r <=? p)%Z && (p <? snd r)%Z) 8
           [Data_Cat_init (Some (0, 10)%Z) (Some (20, 30)%Z)
              (Some (40, 50)%Z) (Some 0%Z)]
           [MOUSEBUTTONDOWN 5%Z; KEYDOWN 49 "1"; MOUSEBUTTONDOWN 25%Z;
            KEYDOWN 50 "2"]).
  - repeat constructor.
  - reflexivity.
Defined.

End FurtherWitnesses.
